(** * Video-Heatmap: cursor detection, trail, density field and compositing

    A shallow embedding of [src/processor.py] ([VideoHeatmapProcessor]) and
    of [CursorDetectionThread] in [src/ui.py].

    Conventions of the embedding:
    - Python [int] is [Z]; [//] and [%] are [Z.div] and [Z.modulo] (both
      floor, as in Python); [int(x)] on a float truncates toward zero.
    - Python and NumPy floats are read as exact rationals ([Q]); the two
      infinities, which only occur as window bounds, are constructors of
      [pyfloat].  NaN is left out.  Where the pass turns a quotient into a
      percentage and truncates it, the rounding of each operation shows in
      the result, so it is written out there ([fl], with [binary64] as its
      executable instance).
    - A [uint8] image is a list of rows of [(b, g, r)] triples of [Z]; a
      [float32] field is a list of rows of [Q].
    - A method that can raise returns a [Py.result].
    - OpenCV and Matplotlib are outside the repository.  The contour
      extraction, the two drawing routines and the colormap table are
      section variables; the drawing routines may fail, and every call the
      builder makes to them is recorded in a log ([Cv]). *)

From Stdlib Require Import String ZArith QArith Qround List Bool Lia.
From Stdlib Require Import Sorting.Sorted.
Import ListNotations.

Local Open Scope Z_scope.

(** * Part I: the program *)

(** ** Python primitives *)

Module Py.

(** Exceptions the modelled code can raise. *)
Inductive exn : Type :=
| ZeroDivisionError
| ValueError
| AttributeError
| CvError.

Inductive result (A : Type) : Type :=
| Ok (a : A)
| Raise (e : exn).

Arguments Ok {A} a.
Arguments Raise {A} e.

Definition bind {A B : Type} (m : result A) (k : A -> result B) : result B :=
  match m with
  | Ok a => k a
  | Raise e => Raise e
  end.

(** [int(x)] for a float [x]: truncation toward zero. *)
Definition int (q : Q) : Z := Z.quot (Qnum q) (Zpos (Qden q)).

(** [a / b] on floats: raises on a zero divisor. *)
Definition truediv (a b : Q) : result Q :=
  if Qeq_bool b 0 then Raise ZeroDivisionError else Ok (a / b)%Q.

(** [a < b] on floats. *)
Definition lt (a b : Q) : bool := negb (Qle_bool b a).

(** [x.astype(np.uint8)] on one element: truncate, then keep the low
    eight bits. *)
Definition astype_uint8 (q : Q) : Z := (int q) mod 256.

End Py.

Notation "x <- m ;; k" := (Py.bind m (fun x => k))
  (at level 61, m at next level, right associativity).

(** Floats that may be infinite: the bounds of a time window. *)
Inductive pyfloat : Type :=
| NegInf
| Fin (q : Q)
| PosInf.

(** [a <= b] on such floats. *)
Definition float_le (a b : pyfloat) : bool :=
  match a, b with
  | NegInf, _ => true
  | _, PosInf => true
  | Fin x, Fin y => Qle_bool x y
  | _, _ => false
  end.

(** ** Rounding to binary64 *)

(** [n / d] rounded to the nearest integer, ties to even, for [0 < d]. *)
Definition round_half_even (n d : Z) : Z :=
  let f := n / d in
  let r := n mod d in
  if 2 * r <? d then f
  else if d <? 2 * r then f + 1
  else if Z.even f then f else f + 1.

(** The positive rational [n / d] rounded to the nearest binary64 number,
    ties to even.  [e1] is the exponent of the quotient,
    [2 ^ e1 <= n / d < 2 ^ (e1 + 1)]; the significand has 53 bits, and
    below [2 ^ -1022] the numbers are the multiples of [2 ^ -1074].
    Overflow is left out: it takes a quotient of [2 ^ 1024]. *)
Definition binary64_pos (n d : positive) : Q :=
  let e0 := Z.log2 (Zpos n) - Z.log2 (Zpos d) in
  let below :=
    if 0 <=? e0 then Zpos n <? Zpos d * 2 ^ e0
    else Zpos n * 2 ^ (- e0) <? Zpos d in
  let e1 := if below then e0 - 1 else e0 in
  let e := Z.max e1 (-1022) in
  let s := 52 - e in
  if 0 <=? s then
    round_half_even (Zpos n * 2 ^ s) (Zpos d) # Z.to_pos (2 ^ s)
  else
    inject_Z (round_half_even (Zpos n) (Zpos d * 2 ^ (- s)) * 2 ^ (- s)).

Definition binary64 (q : Q) : Q :=
  match Qnum q with
  | Z0 => 0%Q
  | Zpos n => binary64_pos n (Qden q)
  | Zneg n => (- binary64_pos n (Qden q))%Q
  end.

(** ** Data *)

Definition Pixel : Type := (Z * Z * Z)%type.
Definition Frame : Type := list (list Pixel).
Definition Field : Type := list (list Q).

(** One entry of [cursor_positions]: [(timestamp, x, y)]. *)
Definition Sample : Type := (Q * Z * Z)%type.

Definition sample_time (s : Sample) : Q := fst (fst s).
Definition sample_xy (s : Sample) : Z * Z := (snd (fst s), snd s).

(** The attributes of [VideoHeatmapProcessor] the modelled methods touch.
    [cap_frames] is the decoded video behind [cap], [cap_pos] the index of
    the frame the next [cap.read()] returns. *)
Record Processor : Type := mkProcessor {
  blur_size : Z;
  width : nat;
  height : nat;
  colormap : string;
  cursor_positions : list Sample;
  total_frames : Z;
  fps : Q;
  cap_frames : list Frame;
  cap_pos : nat
}.

Definition with_blur_size (self : Processor) (v : Z) : Processor :=
  mkProcessor v (width self) (height self) (colormap self)
    (cursor_positions self) (total_frames self) (fps self)
    (cap_frames self) (cap_pos self).

Definition with_cursor_positions (self : Processor) (l : list Sample)
  : Processor :=
  mkProcessor (blur_size self) (width self) (height self) (colormap self)
    l (total_frames self) (fps self) (cap_frames self) (cap_pos self).

Definition with_cap_pos (self : Processor) (n : nat) : Processor :=
  mkProcessor (blur_size self) (width self) (height self) (colormap self)
    (cursor_positions self) (total_frames self) (fps self)
    (cap_frames self) n.

(** ** [set_blur_size] *)

(** [self.blur_size = value if value % 2 == 1 else value + 1] *)
Definition set_blur_size (self : Processor) (value : Z) : Processor :=
  with_blur_size self (if value mod 2 =? 1 then value else value + 1).

(** ** [detect_cursor_from_difference] *)

(** What OpenCV reports for one contour: [contourArea], [arcLength] of the
    closed curve, the width and height of [boundingRect], and the moments
    [m00], [m10], [m01]. *)
Record Contour : Type := mkContour {
  area : Q;
  perimeter : Q;
  rect_w : Z;
  rect_h : Z;
  m00 : Q;
  m10 : Q;
  m01 : Q
}.

(** [np.pi], the double nearest to pi, as the fraction it is. *)
Definition np_pi : Q := 884279719003555 # 281474976710656.

(** [4 * np.pi * area / (perimeter * perimeter)] *)
Definition circularity (c : Contour) : Q :=
  (4 * np_pi * area c / (perimeter c * perimeter c))%Q.

(** [float(w) / h if h > 0 else 0] *)
Definition aspect_ratio (c : Contour) : Q :=
  if 0 <? rect_h c then (inject_Z (rect_w c) / inject_Z (rect_h c))%Q else 0%Q.

(** An entry of [valid_contours]: [(c, area, circularity)]. *)
Definition Candidate : Type := (Contour * Q * Q)%type.

(** The body of [for c in contours]. *)
Definition filter_step (min_area max_area : Z) (valid : list Candidate)
  (c : Contour) : list Candidate :=
  let a := area c in
  if Qle_bool (inject_Z min_area) a && Qle_bool a (inject_Z max_area) then
    let p := perimeter c in
    if Py.lt 0 p then
      let circ := (4 * np_pi * a / (p * p))%Q in
      if Py.lt (35 # 100) circ then
        let ratio := aspect_ratio c in
        if Qle_bool (1 # 2) ratio && Qle_bool ratio 2 then
          valid ++ [(c, a, circ)]
        else valid
      else valid
    else valid
  else valid.

Definition valid_contours (min_area max_area : Z) (contours : list Contour)
  : list Candidate :=
  fold_left (filter_step min_area max_area) contours [].

(** The sort key [lambda x: x[1] * x[2]]. *)
Definition score (x : Candidate) : Q := (snd (fst x) * snd x)%Q.

(** [list.sort(key=..., reverse=True)]: a stable sort into descending key
    order.  An element is put in front of the first one whose key does not
    exceed its own, so equal keys keep their order. *)
Fixpoint insert_desc {A : Type} (key : A -> Q) (x : A) (l : list A) : list A :=
  match l with
  | [] => [x]
  | y :: l' =>
      if Qle_bool (key y) (key x) then x :: y :: l'
      else y :: insert_desc key x l'
  end.

Fixpoint sort_reverse {A : Type} (key : A -> Q) (l : list A) : list A :=
  match l with
  | [] => []
  | x :: l' => insert_desc key x (sort_reverse key l')
  end.

(** From [if valid_contours:] to the final [return -1, -1]. *)
Definition best_centroid (valid : list Candidate) : Z * Z :=
  match valid with
  | [] => (-1, -1)
  | _ :: _ =>
      match sort_reverse score valid with
      | [] => (-1, -1)
      | best :: _ =>
          let M := fst (fst best) in
          if negb (Qeq_bool (m00 M) 0) then
            (Py.int (m10 M / m00 M), Py.int (m01 M / m00 M))
          else (-1, -1)
      end
  end.

Section Detector.

(** Lines 56 to 75 of [processor.py], all of them OpenCV calls: grey
    conversion, 5x5 blur, absolute difference, threshold, opening and
    closing, [findContours]; each contour comes with its measurements. *)
Variable cv2_contours : Frame -> Frame -> Z -> list Contour.

Definition detect_cursor_from_difference (frame prev_frame : option Frame)
  (threshold min_area max_area : Z) : Z * Z :=
  match prev_frame, frame with
  | Some prev, Some cur =>
      best_centroid
        (valid_contours min_area max_area (cv2_contours cur prev threshold))
  | _, _ => (-1, -1)
  end.

End Detector.

(** ** [generate_heatmap] *)

(** The OpenCV calls the builder makes. *)
Inductive CvCall : Type :=
| CvCircle (center : Z * Z) (radius : Z)
| CvGaussianBlur (ksize : Z).

(** A computation that calls OpenCV: it extends the log of the calls made
    so far, and ends with a value or with the exception that stopped it. *)
Definition Cv (A : Type) : Type :=
  list CvCall -> Py.result A * list CvCall.

Definition cv_ret {A : Type} (a : A) : Cv A := fun log => (Py.Ok a, log).

Definition cv_bind {A B : Type} (m : Cv A) (k : A -> Cv B) : Cv B :=
  fun log =>
    match m log with
    | (Py.Ok a, log') => k a log'
    | (Py.Raise e, log') => (Py.Raise e, log')
    end.

(** The call [c], whose outcome is [r]. *)
Definition cv_call {A : Type} (c : CvCall) (r : Py.result A) : Cv A :=
  fun log => (r, log ++ [c]).

Notation "x <~ m ;; k" := (cv_bind m (fun x => k))
  (at level 61, m at next level, right associativity).

(** [np.zeros((height, width), dtype=np.float32)] *)
Definition np_zeros (h w : nat) : Field := repeat (repeat 0%Q w) h.

(** [start_time <= t <= end_time] *)
Definition in_window (start_time end_time : pyfloat) (t : Q) : bool :=
  float_le start_time (Fin t) && float_le (Fin t) end_time.

(** [0 <= x < self.width and 0 <= y < self.height] *)
Definition in_bounds (self : Processor) (x y : Z) : bool :=
  (0 <=? x) && (x <? Z.of_nat (width self))
  && ((0 <=? y) && (y <? Z.of_nat (height self))).

(** The body of [for t, x, y in self.cursor_positions]; the coordinates of
    the trail are integers, on which [int] is the identity. *)
Definition range_step (self : Processor) (start_time end_time : pyfloat)
  (acc : list (Z * Z)) (s : Sample) : list (Z * Z) :=
  let '(t, x, y) := s in
  if in_window start_time end_time t then
    if in_bounds self x y then acc ++ [(x, y)] else acc
  else acc.

Definition positions_in_range (self : Processor)
  (start_time end_time : pyfloat) : list (Z * Z) :=
  fold_left (range_step self start_time end_time) (cursor_positions self) [].

Section Builder.

(** [cv2.circle(img, center, radius, 1.0, -1)], a filled disk. *)
Variable cv2_circle : Field -> Z * Z -> Z -> Py.result Field.
(** [cv2.GaussianBlur(img, (k, k), 0)] *)
Variable cv2_GaussianBlur : Field -> Z -> Py.result Field.

(** [for x, y in positions_in_range: cv2.circle(heatmap, (x, y),
    resolution//4, (1.0), -1)] *)
Fixpoint splat (resolution : Z) (positions : list (Z * Z)) (heatmap : Field)
  : Cv Field :=
  match positions with
  | [] => cv_ret heatmap
  | p :: rest =>
      heatmap <~ cv_call (CvCircle p (resolution / 4))
                   (cv2_circle heatmap p (resolution / 4)) ;;
      splat resolution rest heatmap
  end.

Definition generate_heatmap (self : Processor)
  (start_time end_time : pyfloat) (resolution : Z) : Cv Field :=
  let heatmap := np_zeros (height self) (width self) in
  match cursor_positions self with
  | [] => cv_ret heatmap
  | _ :: _ =>
      let positions := positions_in_range self start_time end_time in
      heatmap <~ splat resolution positions heatmap ;;
      match positions with
      | [] => cv_ret heatmap
      | _ :: _ =>
          cv_call (CvGaussianBlur (blur_size self))
            (cv2_GaussianBlur heatmap (blur_size self))
      end
  end.

End Builder.

(** The radii of the disks in a call log. *)
Definition splat_radii (calls : list CvCall) : list Z :=
  flat_map (fun c => match c with
                     | CvCircle _ r => [r]
                     | CvGaussianBlur _ => []
                     end) calls.

(** ** [apply_heatmap_to_frame] *)

Definition Qmax (a b : Q) : Q := if Qle_bool a b then b else a.

(** [np.max(a)]; a zero-size array has no maximum. *)
Definition np_max (a : Field) : Py.result Q :=
  match concat a with
  | [] => Py.Raise Py.ValueError
  | v :: vs => Py.Ok (fold_left Qmax vs v)
  end.

(** Matplotlib's [Normalize(vmin, vmax)(a)] without clipping. *)
Definition Normalize (vmin vmax : Q) (a : Field) : Py.result Field :=
  if Qeq_bool vmin vmax then Py.Ok (map (map (fun _ => 0%Q)) a)
  else if Py.lt vmax vmin then Py.Raise Py.ValueError
  else Py.Ok (map (map (fun v => ((v - vmin) / (vmax - vmin))%Q)) a).

(** An elementwise operation on two arrays of one shape; NumPy raises when
    the shapes differ (stretching of length-one axes is not modelled: the
    field handed to the compositor has the frame's size). *)
Fixpoint map2_exact {A B C : Type} (f : A -> B -> Py.result C)
  (l1 : list A) (l2 : list B) : Py.result (list C) :=
  match l1, l2 with
  | [], [] => Py.Ok []
  | a :: l1', b :: l2' =>
      c <- f a b ;;
      r <- map2_exact f l1' l2' ;;
      Py.Ok (c :: r)
  | _, _ => Py.Raise Py.ValueError
  end.

Definition array_map2 {A B C : Type} (f : A -> B -> C)
  (a : list (list A)) (b : list (list B)) : Py.result (list (list C)) :=
  map2_exact (map2_exact (fun x y => Py.Ok (f x y))) a b.

(** [frame[c] * (1 - alpha) + colored[c] * alpha], stored into a [uint8]
    array. *)
Definition blend_channel (f c : Z) (alpha : Q) : Z :=
  Py.astype_uint8 (inject_Z f * (1 - alpha) + inject_Z c * alpha)%Q.

Definition blend (p : Pixel) (o : Pixel * Q) : Pixel :=
  let '(fb, fg, fr) := p in
  let '((cb, cg, cr), alpha) := o in
  (blend_channel fb cb alpha, blend_channel fg cg alpha,
   blend_channel fr cr alpha).

(** [(cmap(n)[:3] * 255).astype(np.uint8)], then RGB to BGR. *)
Definition colored_bgr (cmap : Q -> Q * Q * Q) (n : Q) : Pixel :=
  let '(r, g, b) := cmap n in
  (Py.astype_uint8 (b * 255), Py.astype_uint8 (g * 255),
   Py.astype_uint8 (r * 255)).

Section Compositor.

(** [getattr(cm, name)]: Matplotlib's colormap of that name, if it has
    one, giving the red, green and blue of a normalised value (its fourth
    component is dropped by [[:, :, :3]]). *)
Variable cm : string -> option (Q -> Q * Q * Q).

Definition getattr_cm (name : string) : Py.result (Q -> Q * Q * Q) :=
  match cm name with
  | Some cmap => Py.Ok cmap
  | None => Py.Raise Py.AttributeError
  end.

Definition apply_heatmap_to_frame (self : Processor) (frame : Frame)
  (heatmap : Field) (alpha_max : Q) : Py.result Frame :=
  m <- np_max heatmap ;;
  normalized_heatmap <- Normalize 0 (if Py.lt 0 m then m else 1) heatmap ;;
  cmap <- getattr_cm (colormap self) ;;
  (* [colored_heatmap_bgr] and [alpha], both elementwise images of
     [normalized_heatmap], side by side *)
  let overlay :=
    map (map (fun n => (colored_bgr cmap n, (n * alpha_max)%Q)))
      normalized_heatmap in
  array_map2 blend frame overlay.

End Compositor.

(** Element [(i, j)] of an array. *)
Definition at2 {A : Type} (a : list (list A)) (i j : nat) : option A :=
  match nth_error a i with
  | Some row => nth_error row j
  | None => None
  end.

Definition is_uint8 (v : Z) : bool := (0 <=? v) && (v <=? 255).

Definition pixel_is_uint8 (p : Pixel) : bool :=
  let '(b, g, r) := p in is_uint8 b && is_uint8 g && is_uint8 r.

Definition frame_is_uint8 (frame : Frame) : bool :=
  forallb (forallb pixel_is_uint8) frame.

Fixpoint same_shape {A B : Type} (a : list (list A)) (b : list (list B))
  : bool :=
  match a, b with
  | [], [] => true
  | r :: a', s :: b' => (length r =? length s)%nat && same_shape a' b'
  | _, _ => false
  end.

Definition all_zero (heatmap : Field) : bool :=
  forallb (forallb (fun v => Qeq_bool v 0)) heatmap.

(** ** [CursorDetectionThread] *)

(** The Qt signals of the thread. *)
Inductive Signal : Type :=
| progress_updated (value : Z)
| finished_processing (ok : bool).

(** The thread object: its attributes, and the interruption flag every
    [QThread] carries ([requestInterruption]). *)
Record CursorDetectionThread : Type := mkThread {
  processor : Processor;
  min_area : Z;
  max_area : Z;
  threshold : Z;
  interruption_requested : bool
}.

(** The local variables of [run], the processor it mutates and the
    signals emitted so far. *)
Record RunState : Type := mkRunState {
  frame_count : Z;
  prev_frame : option Frame;
  run_processor : Processor;
  emitted : list Signal
}.

Section DetectionPass.

Variable cv2_contours : Frame -> Frame -> Z -> list Contour.

(** The rounding of a real number to the nearest float, which every
    floating-point operation applies to its exact result. *)
Variable fl : Q -> Q.

(** One turn of [while True], for a frame that [cap.read()] delivered. *)
Definition loop_body (th : CursorDetectionThread) (total : Z)
  (st : RunState) (frame : Frame) : Py.result RunState :=
  let p := run_processor st in
  timestamp <- Py.truediv (inject_Z (frame_count st)) (fps p) ;;
  let '(x, y) :=
    match prev_frame st with
    | Some prev =>
        detect_cursor_from_difference cv2_contours (Some frame) (Some prev)
          (threshold th) (min_area th) (max_area th)
    | None => (-1, -1)
    end in
  let p :=
    if (0 <=? x) && (0 <=? y) then
      with_cursor_positions p (cursor_positions p ++ [(timestamp, x, y)])
    else p in
  let p := with_cap_pos p (S (cap_pos p)) in
  let frame_count := frame_count st + 1 in
  ratio <- Py.truediv (inject_Z frame_count) (inject_Z total) ;;
  let progress := Py.int (fl (fl ratio * 100)%Q) in
  Py.Ok (mkRunState frame_count (Some frame) p
           (emitted st ++ [progress_updated progress])).

(** The loop over the frames the capture delivers until [ret] is false. *)
Fixpoint run_loop (th : CursorDetectionThread) (total : Z)
  (frames : list Frame) (st : RunState) : Py.result RunState :=
  match frames with
  | [] => Py.Ok st
  | frame :: rest =>
      st' <- loop_body th total st frame ;;
      run_loop th total rest st'
  end.

(** The state on entry to the loop: the capture rewound, the trail
    replaced by an empty list. *)
Definition run_init (th : CursorDetectionThread) : RunState :=
  mkRunState 0 None
    (with_cursor_positions (with_cap_pos (processor th) 0) []) [].


(** [run]: the processor as the pass leaves it and the signals emitted. *)
Definition run (th : CursorDetectionThread)
  : Py.result (Processor * list Signal) :=
  st <- run_loop th (total_frames (processor th))
          (cap_frames (processor th)) (run_init th) ;;
  Py.Ok (with_cap_pos (run_processor st) 0,
         emitted st ++ [finished_processing true]).

(** ** The trail a pass is expected to produce *)

(** The samples of the frames [frames], numbered from [n], the frame
    before them being [prev]. *)
Fixpoint detections (th : CursorDetectionThread) (rate : Q) (n : Z)
  (prev : option Frame) (frames : list Frame) : list Sample :=
  match frames with
  | [] => []
  | frame :: rest =>
      let '(x, y) :=
        match prev with
        | Some p =>
            detect_cursor_from_difference cv2_contours (Some frame) (Some p)
              (threshold th) (min_area th) (max_area th)
        | None => (-1, -1)
        end in
      (if (0 <=? x) && (0 <=? y) then [((inject_Z n / rate)%Q, x, y)] else [])
      ++ detections th rate (n + 1) (Some frame) rest
  end.

End DetectionPass.

(** The progress values among the signals. *)
Definition progress_values (signals : list Signal) : list Z :=
  flat_map (fun s => match s with
                     | progress_updated v => [v]
                     | finished_processing _ => []
                     end) signals.

(** Timestamps in non-decreasing order. *)
Definition time_ordered (trail : list Sample) : Prop :=
  StronglySorted (fun a b => (sample_time a <= sample_time b)%Q) trail.

(** ** Notions and inputs used in the statements *)

(** The four nested tests of the loop body, as one. *)
Definition survives (min_area max_area : Z) (c : Contour) : bool :=
  Qle_bool (inject_Z min_area) (area c) && Qle_bool (area c) (inject_Z max_area)
  && Py.lt 0 (perimeter c)
  && Py.lt (35 # 100) (circularity c)
  && (Qle_bool (1 # 2) (aspect_ratio c) && Qle_bool (aspect_ratio c) 2).

Definition candidate (c : Contour) : Candidate := (c, area c, circularity c).

Definition centroid_or_sentinel (c : Contour) : Z * Z :=
  if Qeq_bool (m00 c) 0 then (-1, -1)
  else (Py.int (m10 c / m00 c), Py.int (m01 c / m00 c)).

(** A round blob of radius five around [(40, 30)] and a thin streak. *)
Definition blob : Contour :=
  mkContour 78 32 11 11 78 3120 2340.
Definition streak : Contour :=
  mkContour 40 84 40 2 40 800 400.

Definition moments_nonneg (c : Contour) : Prop :=
  (0 <= m00 c)%Q /\ (0 <= m10 c)%Q /\ (0 <= m01 c)%Q.

Definition is_detection (r : Z * Z) : Prop := 0 <= fst r /\ 0 <= snd r.

(** An OpenCV stand-in that finds the blob and the streak in any pair of
    frames, and a one-pixel frame. *)
Definition two_contours (cur prev : Frame) (th : Z) : list Contour :=
  [streak; blob].
Definition black_frame : Frame := [[(0, 0, 0)]].

(** [a <= b] on possibly infinite floats, as a proposition. *)
Definition float_leq (a b : pyfloat) : Prop :=
  match a, b with
  | NegInf, _ => True
  | _, PosInf => True
  | Fin x, Fin y => (x <= y)%Q
  | _, _ => False
  end.

(** The sample is one the builder splats: inside the window, both ends
    included, and inside the frame. *)
Definition splatted (self : Processor) (start_time end_time : pyfloat)
  (s : Sample) : Prop :=
  let '(t, x, y) := s in
  float_leq start_time (Fin t) /\ float_leq (Fin t) end_time
  /\ 0 <= x < Z.of_nat (width self) /\ 0 <= y < Z.of_nat (height self).

Definition keeps (self : Processor) (start_time end_time : pyfloat)
  (s : Sample) : bool :=
  in_window start_time end_time (sample_time s)
  && in_bounds self (snd (fst s)) (snd s).

(** A processor for a 20 by 10 video whose trail holds one sample, at one
    second, and two stand-ins for the OpenCV routines. *)
Definition one_sample : Processor :=
  mkProcessor 15 20 10 "hot" [(1%Q, 5, 5)] 30 10 [] 0.

(** The same video with four samples: at one second, at one and a half
    seconds right of the frame, at two seconds and at two and a half. *)
Definition four_samples : Processor :=
  with_cursor_positions one_sample
    [(1%Q, 5, 5); (3 # 2, 25, 5); (2%Q, 7, 7); (5 # 2, 1, 1)].

Definition draw_nothing (f : Field) (p : Z * Z) (r : Z) : Py.result Field :=
  Py.Ok f.
Definition blur_nothing (f : Field) (k : Z) : Py.result Field := Py.Ok f.

(** A drawing routine that, like OpenCV's, refuses a negative radius. *)
Definition draw_checked (f : Field) (p : Z * Z) (r : Z) : Py.result Field :=
  if r <? 0 then Py.Raise Py.CvError else Py.Ok f.

Definition zip_with {A B C : Type} (g : A -> B -> C) (l1 : list A)
  (l2 : list B) : list C :=
  map (fun xy => g (fst xy) (snd xy)) (combine l1 l2).

(** A two-pixel frame, a field that is zero on its first pixel only, and a
    Matplotlib stand-in whose only colormap, ["hot"], runs from black to
    red. *)
Definition two_pixels : Frame := [[(10, 20, 30); (40, 50, 60)]].
Definition half_zero : Field := [[0%Q; 3%Q]].
Definition red_ramp (name : string) : option (Q -> Q * Q * Q) :=
  if String.eqb name "hot" then Some (fun n => (n, 0%Q, 0%Q)) else None.

(** [int((k / total) * 100)] in floating point, the value emitted after
    the [k]-th frame. *)
Definition progress_of (fl : Q -> Q) (total k : Z) : Z :=
  Py.int (fl (fl (inject_Z k / inject_Z total) * 100)%Q).

(** The progress signals of [len] frames read after the [n]-th. *)
Fixpoint progress_signals (fl : Q -> Q) (total n : Z) (len : nat)
  : list Signal :=
  match len with
  | O => []
  | S len' =>
      progress_updated (progress_of fl total (n + 1))
      :: progress_signals fl total (n + 1) len'
  end.

(** What the percentage needs of the rounding: a number that is not
    negative is not rounded below 0, and a number that is at most an
    integer between 0 and 100 is not rounded above it. *)
Definition keeps_bounds (fl : Q -> Q) : Prop :=
  forall x : Q,
    ((0 <= x)%Q -> (0 <= fl x)%Q)
    /\ forall m : Z, 0 <= m <= 100 ->
         (x <= inject_Z m)%Q -> (fl x <= inject_Z m)%Q.


Definition set_trail (th : CursorDetectionThread) (old : list Sample)
  : CursorDetectionThread :=
  mkThread (with_cursor_positions (processor th) old)
    (min_area th) (max_area th) (threshold th) (interruption_requested th).

(** A three-frame video at ten frames per second, announced as three
    frames, with a stale sample left in the trail by an earlier pass. *)
Definition three_frames : Processor :=
  mkProcessor 15 1 1 "hot" [(99%Q, 0, 0)] 3 10
    [black_frame; black_frame; black_frame] 0.

Definition pass3 : CursorDetectionThread :=
  mkThread three_frames 3 500 15 false.

(** Keys in descending order. *)
Definition descending {A : Type} (key : A -> Q) (l : list A) : Prop :=
  StronglySorted (fun a b => (key b <= key a)%Q) l.

(** The frame the compositor returns on arrays of one shape, [vmax] being
    the upper bound of the normalisation. *)
Definition composited (cmap : Q -> Q * Q * Q) (frame : Frame)
  (heatmap : Field) (alpha_max vmax : Q) : Frame :=
  zip_with (zip_with blend) frame
    (map (map (fun n => (colored_bgr cmap n, (n * alpha_max)%Q)))
       (map (map (fun v => ((v - 0) / (vmax - 0))%Q)) heatmap)).

(** ** Further notions and inputs *)

(** The centre of a disk in the call log lies in the frame. *)
Definition circle_in_frame (self : Processor) (c : CvCall) : Prop :=
  match c with
  | CvCircle (x, y) _ =>
      0 <= x < Z.of_nat (width self) /\ 0 <= y < Z.of_nat (height self)
  | CvGaussianBlur _ => True
  end.

(** The kernel of a smoothing call in the call log is odd. *)
Definition blur_is_odd (c : CvCall) : Prop :=
  match c with
  | CvCircle _ _ => True
  | CvGaussianBlur k => Z.odd k = true
  end.

(** A drawing routine that always fails. *)
Definition draw_failing (f : Field) (p : Z * Z) (r : Z) : Py.result Field :=
  Py.Raise Py.CvError.

(** The round blob again, listed a second time further right. *)
Definition blob_right : Contour :=
  mkContour 78 32 11 11 78 6240 2340.

(** A video whose container announces no frame count. *)
Definition uncounted_frames : Processor :=
  mkProcessor 15 1 1 "hot" [(99%Q, 0, 0)] 0 10
    [black_frame; black_frame] 0.

Definition pass_uncounted : CursorDetectionThread :=
  mkThread uncounted_frames 3 500 15 false.

(** The processor [base] with another trail and another read position. *)
Definition with_trail_and_pos (base : Processor) (trail : list Sample)
  (pos : nat) : Processor :=
  with_cap_pos (with_cursor_positions base trail) pos.

(** ** [ui.py]: Python lists *)

Module Ui.

(** The exceptions of the interface code: those of [Py], and the one of
    list indexing. *)
Inductive exn : Type :=
| PyExn (e : Py.exn)
| IndexError.

Inductive result (A : Type) : Type :=
| Ok (a : A)
| Raise (e : exn).

Arguments Ok {A} a.
Arguments Raise {A} e.

Definition bind {A B : Type} (m : result A) (k : A -> result B) : result B :=
  match m with
  | Ok a => k a
  | Raise e => Raise e
  end.

Definition of_py {A : Type} (m : Py.result A) : result A :=
  match m with
  | Py.Ok a => Ok a
  | Py.Raise e => Raise (PyExn e)
  end.

(** The place in a list of length [len] that the index [i] names: a
    negative index counts from the end. *)
Definition position (len : nat) (i : Z) : option nat :=
  if (0 <=? i) && (i <? Z.of_nat len) then Some (Z.to_nat i)
  else if (i <? 0) && (- Z.of_nat len <=? i)
       then Some (Z.to_nat (Z.of_nat len + i))
       else None.

Fixpoint set_nth {A : Type} (l : list A) (n : nat) (v : A) : list A :=
  match l, n with
  | [], _ => []
  | _ :: l', O => v :: l'
  | x :: l', S n' => x :: set_nth l' n' v
  end.

(** [l[i] += 1] *)
Definition increment (l : list Z) (i : Z) : result (list Z) :=
  match position (length l) i with
  | Some n =>
      match nth_error l n with
      | Some v => Ok (set_nth l n (v + 1))
      | None => Raise IndexError
      end
  | None => Raise IndexError
  end.

(** [max(l) if l else 1] *)
Definition max_or_one (l : list Z) : Z :=
  match l with
  | [] => 1
  | x :: rest => fold_left Z.max rest x
  end.

(** [[h / max_value for h in l]], on integers. *)
Fixpoint normalize (l : list Z) (max_value : Z) : result (list Q) :=
  match l with
  | [] => Ok []
  | h :: rest =>
      bind (of_py (Py.truediv (inject_Z h) (inject_Z max_value))) (fun v =>
      bind (normalize rest max_value) (fun r =>
      Ok (v :: r)))
  end.

End Ui.

Notation "x <-- m ;; k" := (Ui.bind m (fun x => k))
  (at level 61, m at next level, right associativity).

(** ** [sorted(..., key=lambda x: x[0])] *)

(** A stable sort into ascending key order: an element goes in front of
    the first one whose key is not below its own. *)
Fixpoint insert_asc {A : Type} (key : A -> Q) (x : A) (l : list A) : list A :=
  match l with
  | [] => [x]
  | y :: l' =>
      if Qle_bool (key x) (key y) then x :: y :: l'
      else y :: insert_asc key x l'
  end.

Fixpoint sorted {A : Type} (key : A -> Q) (l : list A) : list A :=
  match l with
  | [] => []
  | x :: l' => insert_asc key x (sorted key l')
  end.

(** ** [VideoHeatmapApp.processing_finished]: the data for the timeline *)

(** [for time, _, _ in sorted_positions: bin_idx = min(int(time /
    bin_size), 99); bins[bin_idx] += 1] *)
Fixpoint fill_bins (bin_size : Q) (positions : list Sample) (bins : list Z)
  : Ui.result (list Z) :=
  match positions with
  | [] => Ui.Ok bins
  | (time, _, _) :: rest =>
      q <-- Ui.of_py (Py.truediv time bin_size) ;;
      let bin_idx := Z.min (Py.int q) 99 in
      bins <-- Ui.increment bins bin_idx ;;
      fill_bins bin_size rest bins
  end.

(** [for i, count in enumerate(bins)], from index [i] on: the centre of
    the bin and its share of the fullest bin. *)
Fixpoint bin_points (bin_size : Q) (max_bin : Z) (i : Z) (bins : list Z)
  : Ui.result (list (Q * Q)) :=
  match bins with
  | [] => Ui.Ok []
  | count :: rest =>
      intensity <-- Ui.of_py (Py.truediv (inject_Z count) (inject_Z max_bin)) ;;
      let time_point := (inject_Z i * bin_size + bin_size / 2)%Q in
      points <-- bin_points bin_size max_bin (i + 1) rest ;;
      Ui.Ok ((time_point, intensity) :: points)
  end.

(** The part of [processing_finished(True)] that prepares the data: what
    is handed to [setHeatmapData], [setCursorPositions] and
    [setWidthSeconds], or nothing when the trail is empty.
    [video_duration] is the processor's attribute of that name. *)
Definition processing_finished_data (self : Processor) (video_duration : Q)
  : Ui.result (option (list (Q * Q) * list Sample * Q)) :=
  match cursor_positions self with
  | [] => Ui.Ok None
  | _ :: _ =>
      let sorted_positions := sorted sample_time (cursor_positions self) in
      let max_time := video_duration in
      let bin_size := (max_time / 100)%Q in
      bins <-- fill_bins bin_size sorted_positions (repeat 0 100) ;;
      let max_bin := Ui.max_or_one bins in
      timeline_data <-- bin_points bin_size max_bin 0 bins ;;
      Ui.Ok (Some (timeline_data, sorted_positions, max_time))
  end.

(** ** [WaveformWidget.paintEvent]: the activity histogram *)

(** [for time, _, _ in self.cursor_positions: if time <= max_time:
    bin_idx = min(int(time / bin_size), bins - 1); histogram[bin_idx] += 1] *)
Fixpoint fill_histogram (max_time bin_size : Q) (bins : Z)
  (positions : list Sample) (histogram : list Z) : Ui.result (list Z) :=
  match positions with
  | [] => Ui.Ok histogram
  | (time, _, _) :: rest =>
      if Qle_bool time max_time then
        q <-- Ui.of_py (Py.truediv time bin_size) ;;
        let bin_idx := Z.min (Py.int q) (bins - 1) in
        histogram <-- Ui.increment histogram bin_idx ;;
        fill_histogram max_time bin_size bins rest histogram
      else fill_histogram max_time bin_size bins rest histogram
  end.

(** The list [normalized] that [paintEvent] computes for a widget of
    width [width], or nothing when it returns at once for want of
    positions. *)
Definition waveform_normalized (cursor_positions : list Sample)
  (width_seconds : Q) (width : Z) : Ui.result (option (list Q)) :=
  match cursor_positions with
  | [] => Ui.Ok None
  | _ :: _ =>
      let max_time := width_seconds in
      let bins := width / 2 in
      bin_size <-- Ui.of_py (Py.truediv max_time (inject_Z bins)) ;;
      let histogram := repeat 0 (Z.to_nat bins) in
      histogram <-- fill_histogram max_time bin_size bins cursor_positions
                      histogram ;;
      let max_value := Ui.max_or_one histogram in
      normalized <-- Ui.normalize histogram max_value ;;
      Ui.Ok (Some normalized)
  end.

(** The sum of a list of counts. *)
Definition sum_counts (l : list Z) : Z := fold_right Z.add 0 l.

(** The samples of a trail that are not later than [max_time]. *)
Definition in_view (max_time : Q) (positions : list Sample) : list Sample :=
  filter (fun s => Qle_bool (sample_time s) max_time) positions.

(** ** [TimelineWidget] *)

(** [max(a, b)] and [min(a, b)]: the second argument wins only when it is
    strictly larger, respectively smaller. *)
Definition py_max (a b : Q) : Q := if Py.lt a b then b else a.
Definition py_min (a b : Q) : Q := if Py.lt b a then b else a.

(** The attributes of the widget, with [widget_width] for what
    [self.width()] returns. *)
Record Timeline : Type := mkTimeline {
  total_duration : Q;
  start_marker : Q;
  end_marker : Q;
  current_pos : Q;
  dragging_start : bool;
  dragging_end : bool;
  dragging_current : bool;
  widget_width : Z
}.

(** The signals of the widget. *)
Inductive TimelineSignal : Type :=
| rangeChanged (start_time end_time : Q)
| positionChanged (pos : Q).

(** The widget as [__init__] leaves it. *)
Definition Timeline_init (w : Z) : Timeline :=
  mkTimeline 100 0 10 0 false false false w.

Definition setTotalDuration (self : Timeline) (duration : Q) : Timeline :=
  mkTimeline duration (start_marker self)
    (if Py.lt duration (end_marker self) then duration else end_marker self)
    (current_pos self) (dragging_start self) (dragging_end self)
    (dragging_current self) (widget_width self).

Definition setRange (self : Timeline) (start_time end_time : Q) : Timeline :=
  let start_marker := py_max 0 (py_min start_time (total_duration self)) in
  let end_marker :=
    py_min (py_max end_time start_marker) (total_duration self) in
  mkTimeline (total_duration self) start_marker end_marker
    (current_pos self) (dragging_start self) (dragging_end self)
    (dragging_current self) (widget_width self).

Definition setCurrentPosition (self : Timeline) (pos : Q)
  : Timeline * list TimelineSignal :=
  let old_pos := current_pos self in
  let new_pos := py_max 0 (py_min pos (total_duration self)) in
  (mkTimeline (total_duration self) (start_marker self) (end_marker self)
     new_pos (dragging_start self) (dragging_end self)
     (dragging_current self) (widget_width self),
   if Qeq_bool old_pos new_pos then [] else [positionChanged new_pos]).

Definition getSelectedRange (self : Timeline) : Q * Q :=
  (start_marker self, end_marker self).

(** [int((seconds / self.total_duration) * (self.width() - 20)) + 10] *)
Definition secondsToPixels (self : Timeline) (seconds : Q) : Py.result Z :=
  ratio <- Py.truediv seconds (total_duration self) ;;
  Py.Ok (Py.int (ratio * inject_Z (widget_width self - 20)) + 10).

(** [((pixels - 10) / (self.width() - 20)) * self.total_duration] *)
Definition pixelsToSeconds (self : Timeline) (pixels : Z) : Py.result Q :=
  ratio <- Py.truediv (inject_Z (pixels - 10))
             (inject_Z (widget_width self - 20)) ;;
  Py.Ok (ratio * total_duration self)%Q.

Definition with_markers (self : Timeline) (s e : Q) : Timeline :=
  mkTimeline (total_duration self) s e (current_pos self)
    (dragging_start self) (dragging_end self) (dragging_current self)
    (widget_width self).

(** [mouseMoveEvent], for an event at abscissa [x]. *)
Definition mouseMoveEvent (self : Timeline) (x : Z)
  : Py.result (Timeline * list TimelineSignal) :=
  if dragging_start self || dragging_end self || dragging_current self then
    new_pos <- pixelsToSeconds self x ;;
    let new_pos := py_min (py_max 0 new_pos) (total_duration self) in
    if dragging_start self then
      if Py.lt new_pos (end_marker self) then
        Py.Ok (with_markers self new_pos (end_marker self),
               [rangeChanged new_pos (end_marker self)])
      else Py.Ok (self, [])
    else if dragging_end self then
      if Py.lt (start_marker self) new_pos then
        Py.Ok (with_markers self (start_marker self) new_pos,
               [rangeChanged (start_marker self) new_pos])
      else Py.Ok (self, [])
    else if dragging_current self then
      Py.Ok (setCurrentPosition self new_pos)
    else Py.Ok (self, [])
  else Py.Ok (self, []).

(** The markers are in order inside the video. *)
Definition markers_ordered (self : Timeline) : Prop :=
  (0 <= start_marker self)%Q
  /\ (start_marker self <= end_marker self)%Q
  /\ (end_marker self <= total_duration self)%Q
  /\ (0 <= current_pos self <= total_duration self)%Q.

(** What a signal of the widget announces lies inside the video, a range
    with its ends in order. *)
Definition signal_in_video (total : Q) (s : TimelineSignal) : Prop :=
  match s with
  | rangeChanged a b => (0 <= a)%Q /\ (a <= b)%Q /\ (b <= total)%Q
  | positionChanged p => (0 <= p <= total)%Q
  end.

(** A widget 400 pixels wide on which the start marker is being dragged. *)
Definition dragging_timeline : Timeline :=
  mkTimeline 100 0 10 0 true false false 400.

(** * Part II: properties *)

(** ** The Python primitives *)

Lemma int_of_Z (z : Z) : Py.int (inject_Z z) = z.
Proof. unfold Py.int; simpl. apply Z.quot_1_r. Qed.

Lemma int_Qeq_Z (q : Q) (z : Z) : (q == inject_Z z)%Q -> Py.int q = z.
Proof.
  unfold Qeq, Py.int; simpl. intros H.
  rewrite Z.mul_1_r in H. rewrite H.
  apply Z.quot_mul. discriminate.
Qed.

Lemma int_nonneg (q : Q) : (0 <= q)%Q -> 0 <= Py.int q.
Proof.
  unfold Qle, Py.int; simpl. intros H.
  apply Z.quot_pos; lia.
Qed.

Lemma int_le_upper (q : Q) (n : Z) :
  (0 <= q)%Q -> (q <= inject_Z n)%Q -> Py.int q <= n.
Proof.
  unfold Qle, Py.int; simpl. intros H0 Hn.
  rewrite Z.quot_div_nonneg by lia.
  apply Z.div_le_upper_bound; lia.
Qed.

Lemma astype_uint8_range (q : Q) : 0 <= Py.astype_uint8 q <= 255.
Proof.
  unfold Py.astype_uint8.
  pose proof (Z.mod_pos_bound (Py.int q) 256). lia.
Qed.

Lemma lt_iff (a b : Q) : Py.lt a b = true <-> (a < b)%Q.
Proof.
  unfold Py.lt. rewrite negb_true_iff.
  split; intros H.
  - apply Qnot_le_lt. intros Hle. apply Qle_bool_iff in Hle. congruence.
  - destruct (Qle_bool b a) eqn:E; [| reflexivity].
    apply Qle_bool_iff in E. exfalso. exact (Qlt_not_le _ _ H E).
Qed.

(** A loop that appends the image of each element passing a test is a
    [filter] followed by a [map]. *)
Lemma fold_left_append_filter {A B : Type} (step : list B -> A -> list B)
  (keep : A -> bool) (g : A -> B) :
  (forall acc x, step acc x = if keep x then acc ++ [g x] else acc) ->
  forall (l : list A) (acc : list B),
    fold_left step l acc = acc ++ map g (filter keep l).
Proof.
  intros Hstep l. induction l as [| x l IH]; intros acc; simpl.
  - now rewrite app_nil_r.
  - rewrite IH, Hstep. destruct (keep x); simpl; [| reflexivity].
    now rewrite <- app_assoc.
Qed.

(** ** Rounding to binary64 keeps the bounds of a percentage *)

Lemma round_half_even_bounds (a d : Z) :
  0 < d -> a / d <= round_half_even a d <= a / d + 1.
Proof.
  intros Hd. unfold round_half_even.
  destruct (2 * (a mod d) <? d); [lia |].
  destruct (d <? 2 * (a mod d)); [lia |].
  destruct (Z.even (a / d)); lia.
Qed.

Lemma round_half_even_nonneg (a d : Z) :
  0 <= a -> 0 < d -> 0 <= round_half_even a d.
Proof.
  intros Ha Hd. pose proof (round_half_even_bounds a d Hd).
  pose proof (Z.div_pos a d Ha Hd). lia.
Qed.

(** A quotient that is at most an integer is not rounded above it. *)
Lemma round_half_even_le (a d M : Z) :
  0 < d -> a <= M * d -> round_half_even a d <= M.
Proof.
  intros Hd Ha. unfold round_half_even.
  pose proof (Z.div_mod a d ltac:(lia)) as Hdiv.
  pose proof (Z.mod_pos_bound a d Hd) as Hmod.
  assert (Hf : a / d <= M) by nia.
  destruct (Z.ltb_spec (2 * (a mod d)) d) as [_ | Hhalf]; [exact Hf |].
  assert (Hlt : a / d < M) by nia.
  destruct (d <? 2 * (a mod d)); [lia |].
  destruct (Z.even (a / d)); lia.
Qed.

Lemma binary64_pos_nonneg (n d : positive) : (0 <= binary64_pos n d)%Q.
Proof.
  unfold binary64_pos. cbv zeta.
  match goal with
  | |- context [0 <=? ?s] => destruct (Z.leb_spec 0 s) as [Hs | Hs]
  end.
  - unfold Qle. cbn [Qnum Qden]. rewrite Z.mul_1_r.
    apply round_half_even_nonneg; [| lia].
    apply Z.mul_nonneg_nonneg; [lia | apply Z.pow_nonneg; lia].
  - rewrite <- (Zle_Qle 0).
    apply Z.mul_nonneg_nonneg; [| apply Z.pow_nonneg; lia].
    apply round_half_even_nonneg; [lia |].
    apply Z.mul_pos_pos; [lia |].
    apply Z.pow_pos_nonneg; lia.
Qed.

(** A quotient with an exponent above 52 is at least [2 ^ 53]. *)
Lemma exponent_above_52 (n d : positive) :
  let e0 := Z.log2 (Zpos n) - Z.log2 (Zpos d) in
  let below :=
    if 0 <=? e0 then Zpos n <? Zpos d * 2 ^ e0
    else Zpos n * 2 ^ (- e0) <? Zpos d in
  52 < (if below then e0 - 1 else e0) ->
  Zpos d * 2 ^ 53 <= Zpos n.
Proof.
  intros e0 below He.
  destruct (Z.log2_spec (Zpos n) ltac:(lia)) as [Hn _].
  destruct (Z.log2_spec (Zpos d) ltac:(lia)) as [_ Hd].
  pose proof (Z.log2_nonneg (Zpos d)) as Hld.
  destruct below eqn:Eb.
  - assert (He0 : 54 <= e0) by lia.
    replace (Z.log2 (Zpos n)) with (Z.succ (Z.log2 (Zpos d)) + (e0 - 1)) in Hn
      by (unfold e0; lia).
    rewrite Z.pow_add_r in Hn by lia.
    assert (Hp : 2 ^ 53 <= 2 ^ (e0 - 1)) by (apply Z.pow_le_mono_r; lia).
    assert (0 < 2 ^ 53) by reflexivity.
    nia.
  - assert (He0 : 53 <= e0) by lia.
    unfold below in Eb.
    destruct (Z.leb_spec 0 e0) as [_ | Hneg]; [| lia].
    apply Z.ltb_ge in Eb.
    assert (Hp : 2 ^ 53 <= 2 ^ e0) by (apply Z.pow_le_mono_r; lia).
    nia.
Qed.

Lemma binary64_pos_le (n d : positive) (m : Z) :
  0 <= m <= 100 -> Zpos n <= m * Zpos d ->
  (binary64_pos n d <= inject_Z m)%Q.
Proof.
  intros Hm Hx. unfold binary64_pos. cbv zeta.
  set (e0 := Z.log2 (Zpos n) - Z.log2 (Zpos d)).
  set (below := if 0 <=? e0 then Zpos n <? Zpos d * 2 ^ e0
                else Zpos n * 2 ^ (- e0) <? Zpos d).
  set (e1 := if below then e0 - 1 else e0).
  destruct (Z.leb_spec 0 (52 - Z.max e1 (-1022))) as [Hs | Hs].
  - set (s := 52 - Z.max e1 (-1022)) in *.
    assert (Hpow : 0 < 2 ^ s) by (apply Z.pow_pos_nonneg; lia).
    unfold Qle. cbn [Qnum Qden inject_Z]. rewrite Z.mul_1_r.
    rewrite Z2Pos.id by exact Hpow.
    apply round_half_even_le; [lia | nia].
  - exfalso.
    assert (He : 52 < e1) by lia.
    pose proof (exponent_above_52 n d He) as Hbig.
    assert (0 < 2 ^ 53) by reflexivity.
    assert (100 < 2 ^ 53) by reflexivity.
    nia.
Qed.

Lemma binary64_keeps_bounds : keeps_bounds binary64.
Proof.
  intros [num den]. unfold binary64. cbn [Qnum Qden].
  destruct num as [| n | n].
  - split; [intros _; apply Qle_refl |].
    intros m Hm _. rewrite <- (Zle_Qle 0). lia.
  - split; [intros _; apply binary64_pos_nonneg |].
    intros m Hm Hx. apply binary64_pos_le; [exact Hm |].
    unfold Qle in Hx. cbn [Qnum Qden inject_Z] in Hx. lia.
  - split.
    + intros Hx. unfold Qle in Hx. cbn [Qnum Qden] in Hx. lia.
    + intros m Hm _.
      apply Qle_trans with 0%Q; [| rewrite <- (Zle_Qle 0); lia].
      apply (Qopp_le_compat 0). apply binary64_pos_nonneg.
Qed.

(** The rounding shows in the percentage: 29 frames of 100 are reported
    as 28, where the exact quotient would give 29. *)
Example progress_of_binary64 :
  map (progress_of binary64 100) [28; 29; 57; 58; 100]
  = [28; 28; 56; 57; 100]
  /\ progress_of (fun q => q) 100 29 = 29.
Proof. split; vm_compute; reflexivity. Qed.

(** ** [set_blur_size] always stores an odd size *)

(** C9: for every integer [v], the blur size stored by [set_blur_size] is
    odd; it is [v] itself when [v] is odd and [v + 1] when [v] is even. *)
Theorem set_blur_size_odd (self : Processor) (v : Z) :
  Z.odd (blur_size (set_blur_size self v)) = true
  /\ (Z.odd v = true -> blur_size (set_blur_size self v) = v)
  /\ (Z.even v = true -> blur_size (set_blur_size self v) = v + 1).
Proof.
  unfold set_blur_size; simpl.
  rewrite Zmod_odd.
  destruct (Z.odd v) eqn:Hodd; simpl.
  - repeat split; auto.
    rewrite <- Z.negb_odd, Hodd. discriminate.
  - repeat split; try discriminate.
    rewrite Z.odd_add, Hodd. reflexivity.
Qed.

(** ** The contour filter *)

Lemma filter_step_survives (min_area max_area : Z) (valid : list Candidate)
  (c : Contour) :
  filter_step min_area max_area valid c
  = if survives min_area max_area c then valid ++ [candidate c] else valid.
Proof.
  unfold filter_step, survives, candidate, circularity.
  destruct (Qle_bool (inject_Z min_area) (area c)
            && Qle_bool (area c) (inject_Z max_area)); simpl; [| reflexivity].
  destruct (Py.lt 0 (perimeter c)); simpl; [| reflexivity].
  destruct (Py.lt (35 # 100) _); simpl; reflexivity.
Qed.

Lemma valid_contours_filter (min_area max_area : Z) (contours : list Contour) :
  valid_contours min_area max_area contours
  = map candidate (filter (survives min_area max_area) contours).
Proof.
  unfold valid_contours.
  apply (fold_left_append_filter _ (survives min_area max_area) candidate).
  intros acc c. apply filter_step_survives.
Qed.



Lemma In_valid_contours (min_area max_area : Z) (contours : list Contour)
  (c : Contour) :
  In (candidate c) (valid_contours min_area max_area contours)
  <-> In c contours /\ survives min_area max_area c = true.
Proof.
  rewrite valid_contours_filter, in_map_iff.
  split.
  - intros (c' & Heq & Hin). inversion Heq; subst c'.
    now apply filter_In in Hin.
  - intros H. exists c. split; [reflexivity | now apply filter_In].
Qed.

Lemma valid_contours_candidates (min_area max_area : Z)
  (contours : list Contour) (x : Candidate) :
  In x (valid_contours min_area max_area contours) ->
  x = candidate (fst (fst x)).
Proof.
  rewrite valid_contours_filter, in_map_iff.
  intros (c & <- & _). reflexivity.
Qed.

(** ** The descending stable sort *)

Section SortReverse.

Context {A : Type} (key : A -> Q).

Lemma insert_desc_In (x y : A) (l : list A) :
  In y (insert_desc key x l) <-> y = x \/ In y l.
Proof.
  induction l as [| z l IH]; simpl.
  - intuition.
  - destruct (Qle_bool (key z) (key x)); simpl; [intuition |].
    rewrite IH. intuition.
Qed.

Lemma sort_reverse_In (y : A) (l : list A) :
  In y (sort_reverse key l) <-> In y l.
Proof.
  induction l as [| x l IH]; simpl; [tauto |].
  rewrite insert_desc_In, IH. intuition.
Qed.

Lemma insert_desc_descending (x : A) (l : list A) :
  descending key l -> descending key (insert_desc key x l).
Proof.
  unfold descending.
  induction l as [| z l IH]; intros Hs; simpl.
  - constructor; constructor.
  - inversion Hs as [| ? ? Hs' Hall]; subst.
    destruct (Qle_bool (key z) (key x)) eqn:E.
    + apply Qle_bool_iff in E.
      constructor; [exact Hs |].
      constructor; [exact E |].
      rewrite Forall_forall in *. intros b Hb.
      apply Qle_trans with (key z); auto.
    + constructor; [auto |].
      rewrite Forall_forall in *. intros b Hb.
      apply insert_desc_In in Hb. destruct Hb as [-> | Hb]; [| auto].
      apply Qlt_le_weak, lt_iff. unfold Py.lt. now rewrite E.
Qed.

Lemma sort_reverse_descending (l : list A) :
  descending key (sort_reverse key l).
Proof.
  induction l as [| x l IH]; simpl.
  - constructor.
  - now apply insert_desc_descending.
Qed.

(** The first element after sorting is in the list and has the largest
    key. *)
Lemma sort_reverse_head (l : list A) (b : A) (r : list A) :
  sort_reverse key l = b :: r ->
  In b l /\ forall x, In x l -> (key x <= key b)%Q.
Proof.
  intros E.
  pose proof (sort_reverse_descending l) as Hs.
  unfold descending in Hs. rewrite E in Hs.
  inversion Hs as [| ? ? _ Hall]; subst.
  split.
  - apply sort_reverse_In. rewrite E. now left.
  - intros x Hx. apply sort_reverse_In in Hx. rewrite E in Hx.
    destruct Hx as [<- | Hx]; [apply Qle_refl |].
    rewrite Forall_forall in Hall. auto.
Qed.

Lemma sort_reverse_nonempty (x : A) (l : list A) :
  sort_reverse key (x :: l) <> [].
Proof.
  intros E.
  assert (H : In x (sort_reverse key (x :: l)))
    by (apply sort_reverse_In; now left).
  rewrite E in H. exact H.
Qed.

End SortReverse.

(** ** Selection and centroid *)

Lemma best_centroid_empty : best_centroid [] = (-1, -1).
Proof. reflexivity. Qed.

Lemma best_centroid_selected (valid : list Candidate) :
  valid <> [] ->
  exists best,
    In best valid
    /\ (forall x, In x valid -> (score x <= score best)%Q)
    /\ best_centroid valid = centroid_or_sentinel (fst (fst best)).
Proof.
  intros Hne. destruct valid as [| v valid]; [congruence |].
  unfold best_centroid.
  destruct (sort_reverse score (v :: valid)) as [| best r] eqn:E.
  - exfalso. exact (sort_reverse_nonempty score v valid E).
  - apply sort_reverse_head in E. destruct E as [Hin Hmax].
    exists best. repeat split; auto.
    unfold centroid_or_sentinel.
    destruct (Qeq_bool (m00 (fst (fst best))) 0); reflexivity.
Qed.



(** ** The sentinel of the detector *)

Lemma quotient_nonneg (a b : Q) : (0 <= a)%Q -> (0 <= b)%Q -> (0 <= a / b)%Q.
Proof.
  intros Ha Hb. unfold Qdiv.
  apply Qmult_le_0_compat; [exact Ha |].
  now apply Qinv_le_0_compat.
Qed.

Lemma centroid_or_sentinel_cases (c : Contour) :
  moments_nonneg c ->
  centroid_or_sentinel c = (-1, -1) \/ is_detection (centroid_or_sentinel c).
Proof.
  intros (H0 & H1 & H2). unfold centroid_or_sentinel, is_detection.
  destruct (Qeq_bool (m00 c) 0); [now left | right]; simpl.
  split; apply int_nonneg, quotient_nonneg; assumption.
Qed.

Lemma best_centroid_cases (min_area max_area : Z) (contours : list Contour) :
  Forall moments_nonneg contours ->
  let r := best_centroid (valid_contours min_area max_area contours) in
  r = (-1, -1) \/ is_detection r.
Proof.
  intros Hm r. subst r.
  destruct (valid_contours min_area max_area contours) as [| v l] eqn:E.
  - now left.
  - rewrite <- E.
    destruct (best_centroid_selected (valid_contours min_area max_area contours))
      as (best & Hin & _ & ->); [rewrite E; discriminate |].
    apply centroid_or_sentinel_cases.
    pose proof (valid_contours_candidates _ _ _ _ Hin) as Hc.
    rewrite Hc in Hin. apply In_valid_contours in Hin.
    rewrite Forall_forall in Hm. apply Hm, Hin.
Qed.

Section DetectorProperties.

Variable cv2_contours : Frame -> Frame -> Z -> list Contour.

(** The moments OpenCV computes for a contour of image pixels, whose
    coordinates are not negative, are not negative. *)
Hypothesis moments_of_pixels :
  forall cur prev th, Forall moments_nonneg (cv2_contours cur prev th).

(** C10: the detector returns either a pair of non-negative coordinates
    or exactly [(-1, -1)], the latter whenever a frame is missing; so the
    caller's test [x >= 0 and y >= 0] holds exactly for the results other
    than the sentinel. *)
Theorem detect_sentinel_or_position (frame prev_frame : option Frame)
  (threshold min_area max_area : Z) :
  let r := detect_cursor_from_difference cv2_contours frame prev_frame
             threshold min_area max_area in
  (r = (-1, -1) \/ (0 <= fst r /\ 0 <= snd r))
  /\ (frame = None \/ prev_frame = None -> r = (-1, -1))
  /\ (0 <= fst r /\ 0 <= snd r <-> r <> (-1, -1)).
Proof.
  intros r.
  assert (Hcases : r = (-1, -1) \/ is_detection r).
  { subst r. unfold detect_cursor_from_difference.
    destruct prev_frame as [prev |]; [| now left].
    destruct frame as [cur |]; [| now left].
    apply best_centroid_cases, moments_of_pixels. }
  split; [exact Hcases | split].
  - subst r. unfold detect_cursor_from_difference.
    intros [-> | ->]; [destruct prev_frame |]; reflexivity.
  - split.
    + intros [Hx _] E. rewrite E in Hx. simpl in Hx. lia.
    + intros Hne. destruct Hcases as [E | Hd]; [contradiction | exact Hd].
Qed.

End DetectorProperties.

Lemma detect_sentinel_or_position_witness :
  detect_cursor_from_difference two_contours (Some black_frame)
    (Some black_frame) 15 3 500 <> (-1, -1)
  /\ detect_cursor_from_difference two_contours (Some black_frame) None
       15 3 500 = (-1, -1).
Proof.
  assert (Hm : forall cur prev th, Forall moments_nonneg (two_contours cur prev th))
    by (intros; repeat constructor; discriminate).
  split.
  - apply (detect_sentinel_or_position two_contours Hm
             (Some black_frame) (Some black_frame) 15 3 500).
    vm_compute. split; discriminate.
  - apply (detect_sentinel_or_position two_contours Hm
             (Some black_frame) None 15 3 500).
    now right.
Defined.

(** ** The window filter of the density-field builder *)

Lemma float_le_iff (a b : pyfloat) : float_le a b = true <-> float_leq a b.
Proof.
  destruct a, b; simpl; try apply Qle_bool_iff;
    try (split; [intros _; exact I | reflexivity]);
    split; intros H; (discriminate H || contradiction).
Qed.

Lemma float_le_trans (a b c : pyfloat) :
  float_le a b = true -> float_le b c = true -> float_le a c = true.
Proof.
  rewrite !float_le_iff.
  destruct a, b, c; simpl; try tauto. apply Qle_trans.
Qed.

Lemma keeps_iff (self : Processor) (start_time end_time : pyfloat)
  (s : Sample) :
  keeps self start_time end_time s = true
  <-> splatted self start_time end_time s.
Proof.
  destruct s as [[t x] y].
  unfold keeps, splatted, in_window, in_bounds, sample_time.
  cbn [fst snd]. rewrite !andb_true_iff, !float_le_iff.
  rewrite !Z.leb_le, !Z.ltb_lt. tauto.
Qed.

Lemma positions_in_range_filter (self : Processor)
  (start_time end_time : pyfloat) :
  positions_in_range self start_time end_time
  = map sample_xy
      (filter (keeps self start_time end_time) (cursor_positions self)).
Proof.
  unfold positions_in_range.
  apply (fold_left_append_filter _ (keeps self start_time end_time) sample_xy).
  intros acc [[t x] y]. unfold range_step, keeps, sample_time, sample_xy.
  cbn [fst snd].
  destruct (in_window start_time end_time t); reflexivity.
Qed.

Lemma filter_ext_Forall {A : Type} (f g : A -> bool) (l : list A) :
  Forall (fun x => f x = g x) l -> filter f l = filter g l.
Proof.
  induction 1 as [| x l Hx _ IH]; simpl; [reflexivity |].
  now rewrite Hx, IH.
Qed.

(** A window that contains every timestamp of the trail selects what the
    unbounded window selects. *)
Lemma positions_in_range_covering (self : Processor)
  (start_time end_time : pyfloat) :
  Forall (fun s => float_leq start_time (Fin (sample_time s))
                   /\ float_leq (Fin (sample_time s)) end_time)
    (cursor_positions self) ->
  positions_in_range self start_time end_time
  = positions_in_range self NegInf PosInf.
Proof.
  intros Hall. rewrite !positions_in_range_filter. f_equal.
  apply filter_ext_Forall.
  eapply Forall_impl; [| exact Hall].
  intros s [H1 H2]. unfold keeps, in_window.
  apply float_le_iff in H1, H2. rewrite H1, H2. reflexivity.
Qed.

(** ** Windows without samples *)

Lemma in_window_inverted (start_time end_time : pyfloat) (t : Q) :
  float_le start_time end_time = false ->
  in_window start_time end_time t = false.
Proof.
  intros Hinv. unfold in_window.
  destruct (float_le start_time (Fin t)) eqn:E1; [| reflexivity].
  destruct (float_le (Fin t) end_time) eqn:E2; [| reflexivity].
  rewrite (float_le_trans _ _ _ E1 E2) in Hinv. discriminate.
Qed.

Lemma positions_in_range_none (self : Processor)
  (start_time end_time : pyfloat) :
  Forall (fun s => in_window start_time end_time (sample_time s) = false)
    (cursor_positions self) ->
  positions_in_range self start_time end_time = [].
Proof.
  intros Hall. rewrite positions_in_range_filter.
  induction Hall as [| s l Hs _ IH]; simpl; [reflexivity |].
  unfold keeps at 1. rewrite Hs. simpl. exact IH.
Qed.

Lemma np_zeros_shape (h w : nat) :
  length (np_zeros h w) = h
  /\ Forall (fun row => length row = w /\ Forall (fun v => v = 0%Q) row)
       (np_zeros h w).
Proof.
  unfold np_zeros. split; [apply repeat_length |].
  apply Forall_forall. intros row Hrow.
  apply repeat_spec in Hrow. subst row.
  split; [apply repeat_length |].
  apply Forall_forall. intros v Hv. now apply repeat_spec in Hv.
Qed.

(** With a drawing routine that accepts every disk, the loop draws
    them one after the other into the field, in the order of the
    positions. *)
Lemma splat_total (draw : Field -> Z * Z -> Z -> Field) (resolution : Z)
  (positions : list (Z * Z)) :
  forall heatmap log,
    splat (fun f p r => Py.Ok (draw f p r)) resolution positions heatmap log
    = (Py.Ok (fold_left (fun f p => draw f p (resolution / 4)) positions
                heatmap),
       log ++ map (fun p => CvCircle p (resolution / 4)) positions).
Proof.
  induction positions as [| p rest IH]; intros heatmap log.
  - simpl. unfold cv_ret. now rewrite app_nil_r.
  - cbn [splat fold_left map]. unfold cv_bind, cv_call.
    rewrite IH, <- app_assoc. reflexivity.
Qed.

Lemma generate_heatmap_total (draw : Field -> Z * Z -> Z -> Field)
  (cv2_GaussianBlur : Field -> Z -> Py.result Field) (self : Processor)
  (start_time end_time : pyfloat) (resolution : Z) :
  generate_heatmap (fun f p r => Py.Ok (draw f p r)) cv2_GaussianBlur self
    start_time end_time resolution []
  = match positions_in_range self start_time end_time with
    | [] => (Py.Ok (np_zeros (height self) (width self)), [])
    | _ :: _ =>
        (cv2_GaussianBlur
           (fold_left (fun f p => draw f p (resolution / 4))
              (positions_in_range self start_time end_time)
              (np_zeros (height self) (width self)))
           (blur_size self),
         map (fun p => CvCircle p (resolution / 4))
           (positions_in_range self start_time end_time)
         ++ [CvGaussianBlur (blur_size self)])
    end.
Proof.
  unfold generate_heatmap.
  destruct (cursor_positions self) as [| s0 trail] eqn:Etrail.
  - unfold positions_in_range. rewrite Etrail. reflexivity.
  - unfold cv_bind. rewrite splat_total.
    destruct (positions_in_range self start_time end_time); reflexivity.
Qed.

Section BuilderProperties.

Variable cv2_circle : Field -> Z * Z -> Z -> Py.result Field.
Variable cv2_GaussianBlur : Field -> Z -> Py.result Field.

(** The disks are drawn in order, each with the radius [resolution // 4],
    up to the first one OpenCV refuses. *)
Lemma splat_log (resolution : Z) (positions : list (Z * Z)) :
  forall heatmap log,
    exists n,
      snd (splat cv2_circle resolution positions heatmap log)
      = log ++ map (fun p => CvCircle p (resolution / 4)) (firstn n positions)
      /\ (positions <> [] -> (0 < n)%nat).
Proof.
  induction positions as [| p rest IH]; intros heatmap log.
  - exists 0%nat. simpl. rewrite app_nil_r. split; [reflexivity | congruence].
  - cbn [splat]. unfold cv_bind, cv_call.
    destruct (cv2_circle heatmap p (resolution / 4)) as [drawn | e].
    + destruct (IH drawn (log ++ [CvCircle p (resolution / 4)]))
        as (n & Hlog & _).
      exists (S n). rewrite Hlog. cbn [firstn map].
      rewrite <- app_assoc. split; [reflexivity | lia].
    + exists 1%nat. cbn [firstn map snd]. split; [reflexivity | lia].
Qed.

(** When every disk is drawn, the result and the log of the loop. *)
Lemma splat_all_drawn (resolution : Z) (positions : list (Z * Z)) :
  (forall f p r, exists f', cv2_circle f p r = Py.Ok f') ->
  forall heatmap log,
    exists drawn,
      splat cv2_circle resolution positions heatmap log
      = (Py.Ok drawn,
         log ++ map (fun p => CvCircle p (resolution / 4)) positions).
Proof.
  intros Hdraw. induction positions as [| p rest IH]; intros heatmap log.
  - exists heatmap. simpl. unfold cv_ret. now rewrite app_nil_r.
  - cbn [splat]. unfold cv_bind, cv_call.
    destruct (Hdraw heatmap p (resolution / 4)) as [f' ->].
    destruct (IH f' (log ++ [CvCircle p (resolution / 4)])) as [drawn ->].
    exists drawn. cbn [map]. now rewrite <- app_assoc.
Qed.

(** The whole log: disks for a prefix of the selected positions, which
    holds the first of them, then at most one smoothing call, with the
    processor's kernel size. *)
Lemma generate_heatmap_log (self : Processor)
  (start_time end_time : pyfloat) (resolution : Z) :
  exists n blurs,
    snd (generate_heatmap cv2_circle cv2_GaussianBlur self
           start_time end_time resolution [])
    = map (fun p => CvCircle p (resolution / 4))
        (firstn n (positions_in_range self start_time end_time))
      ++ blurs
    /\ (blurs = [] \/ blurs = [CvGaussianBlur (blur_size self)])
    /\ (positions_in_range self start_time end_time <> [] -> (0 < n)%nat).
Proof.
  unfold generate_heatmap.
  destruct (cursor_positions self) as [| s0 trail] eqn:Etrail.
  - exists 0%nat, []. split; [reflexivity |]. split; [now left |].
    unfold positions_in_range. rewrite Etrail. simpl. congruence.
  - set (positions := positions_in_range self start_time end_time).
    destruct (splat_log resolution positions
                (np_zeros (height self) (width self)) [])
      as (n & Hlog & Hn).
    exists n. unfold cv_bind.
    destruct (splat cv2_circle resolution positions
                (np_zeros (height self) (width self)) [])
      as [[drawn | e] calls]; cbn [snd app] in Hlog; subst calls.
    + destruct positions as [| p0 ps].
      * exists []. split; [now rewrite app_nil_r |].
        split; [now left | exact Hn].
      * exists [CvGaussianBlur (blur_size self)].
        split; [reflexivity |]. split; [now right | exact Hn].
    + exists []. split; [now rewrite app_nil_r |].
      split; [now left | exact Hn].
Qed.

Lemma generate_heatmap_no_positions (self : Processor)
  (start_time end_time : pyfloat) (resolution : Z) :
  positions_in_range self start_time end_time = [] ->
  generate_heatmap cv2_circle cv2_GaussianBlur self start_time end_time
    resolution []
  = (Py.Ok (np_zeros (height self) (width self)), []).
Proof.
  intros Hnone. unfold generate_heatmap.
  destruct (cursor_positions self); [reflexivity |].
  rewrite Hnone. reflexivity.
Qed.

(** C3: when no sample falls in the window (the trail is empty, the window
    is inverted, or every timestamp lies outside it) the builder returns,
    whatever OpenCV would do, the field of [height] rows of [width] zeros,
    and makes no OpenCV call at all: nothing is splatted and the smoothing
    pass is skipped. *)
Theorem empty_window_zero_field (self : Processor)
  (start_time end_time : pyfloat) (resolution : Z) :
  cursor_positions self = []
  \/ float_le start_time end_time = false
  \/ Forall (fun s => in_window start_time end_time (sample_time s) = false)
       (cursor_positions self) ->
  exists field,
    generate_heatmap cv2_circle cv2_GaussianBlur self start_time end_time
      resolution []
    = (Py.Ok field, [])
    /\ length field = height self
    /\ Forall (fun row => length row = width self
                          /\ Forall (fun v => v = 0%Q) row) field.
Proof.
  intros Hnone.
  assert (Hpos : positions_in_range self start_time end_time = []).
  { apply positions_in_range_none.
    destruct Hnone as [E | [Hinv | Hall]].
    - rewrite E. constructor.
    - apply Forall_forall. intros s _. now apply in_window_inverted.
    - exact Hall. }
  exists (np_zeros (height self) (width self)).
  split; [now apply generate_heatmap_no_positions | apply np_zeros_shape].
Qed.

Lemma splat_radii_circles (r : Z) (positions : list (Z * Z)) :
  splat_radii (map (fun p => CvCircle p r) positions)
  = repeat r (length positions).
Proof.
  induction positions as [| p l IH]; simpl; [reflexivity | now rewrite IH].
Qed.

Lemma splat_radii_blur (calls : list CvCall) (k : Z) :
  splat_radii (calls ++ [CvGaussianBlur k]) = splat_radii calls.
Proof.
  unfold splat_radii. rewrite flat_map_app. simpl. apply app_nil_r.
Qed.

(** The disks drawn all have the radius [resolution // 4]; there is one
    for the first selected position at least, and at most one for each. *)
Lemma generate_heatmap_radii (self : Processor)
  (start_time end_time : pyfloat) (resolution : Z) :
  exists n,
    splat_radii
      (snd (generate_heatmap cv2_circle cv2_GaussianBlur self
              start_time end_time resolution []))
    = repeat (resolution / 4) n
    /\ (n <= length (positions_in_range self start_time end_time))%nat
    /\ (positions_in_range self start_time end_time <> [] -> (0 < n)%nat).
Proof.
  unfold generate_heatmap.
  destruct (cursor_positions self) as [| s0 trail] eqn:Etrail.
  - exists 0%nat. unfold positions_in_range. rewrite Etrail.
    simpl. split; [reflexivity | split; [lia | congruence]].
  - set (positions := positions_in_range self start_time end_time).
    destruct (splat_log resolution positions
                (np_zeros (height self) (width self)) [])
      as (n & Hlog & Hn).
    exists (length (firstn n positions)).
    assert (Hcount : (length (firstn n positions) <= length positions)%nat)
      by (rewrite length_firstn; lia).
    assert (Hfirst : positions <> [] ->
                     (0 < length (firstn n positions))%nat).
    { intros Hne. specialize (Hn Hne). rewrite length_firstn.
      destruct positions; [congruence | simpl; lia]. }
    unfold cv_bind.
    destruct (splat cv2_circle resolution positions
                (np_zeros (height self) (width self)) [])
      as [[drawn | e] calls]; cbn [snd app] in Hlog; subst calls.
    + split; [| split; assumption].
      destruct positions as [| p0 ps].
      * rewrite firstn_nil. reflexivity.
      * cbn [cv_call snd]. rewrite splat_radii_blur.
        apply splat_radii_circles.
    + split; [| split; assumption].
      apply splat_radii_circles.
Qed.

(** When OpenCV accepts every disk, there is one for each selected
    position. *)
Lemma generate_heatmap_radii_accepted (self : Processor)
  (start_time end_time : pyfloat) (resolution : Z) :
  (forall f p r, exists f', cv2_circle f p r = Py.Ok f') ->
  splat_radii
    (snd (generate_heatmap cv2_circle cv2_GaussianBlur self
            start_time end_time resolution []))
  = repeat (resolution / 4)
      (length (positions_in_range self start_time end_time)).
Proof.
  intros Hdraw. unfold generate_heatmap.
  destruct (cursor_positions self) as [| s0 trail] eqn:Etrail.
  - unfold positions_in_range. rewrite Etrail. reflexivity.
  - set (positions := positions_in_range self start_time end_time).
    unfold cv_bind.
    destruct (splat_all_drawn resolution positions Hdraw
                (np_zeros (height self) (width self)) [])
      as [drawn ->].
    destruct positions as [| p0 ps]; [reflexivity |].
    cbn [cv_call snd app]. rewrite splat_radii_blur.
    apply splat_radii_circles.
Qed.

(** C8, as the code has it: every call of [cv2.circle] is given the radius
    [resolution // 4] itself.  The calls are made for the selected samples
    in order and stop at the first one OpenCV refuses: there are never
    more calls than selected samples, the first selected sample always
    gets one, and there is one for each when OpenCV accepts them all.  No
    lower bound is applied, so the radius is at least one exactly when the
    resolution is at least four. *)
Theorem splat_radius_is_quarter_resolution (self : Processor)
  (start_time end_time : pyfloat) (resolution : Z) :
  let positions := positions_in_range self start_time end_time in
  let calls :=
    snd (generate_heatmap cv2_circle cv2_GaussianBlur self
           start_time end_time resolution []) in
  Forall (fun r => r = resolution / 4) (splat_radii calls)
  /\ (length (splat_radii calls) <= length positions)%nat
  /\ (positions <> [] -> In (resolution / 4) (splat_radii calls))
  /\ ((forall f p r, exists f', cv2_circle f p r = Py.Ok f') ->
      splat_radii calls = repeat (resolution / 4) (length positions))
  /\ (1 <= resolution / 4 <-> 4 <= resolution).
Proof.
  intros positions calls. subst positions calls.
  pose proof (generate_heatmap_radii_accepted self start_time end_time
                resolution) as Hall.
  destruct (generate_heatmap_radii self start_time end_time resolution)
    as (n & Hradii & Hle & Hn).
  split; [| split; [| split; [| split]]].
  - rewrite Hradii. apply Forall_forall. intros r Hr.
    now apply repeat_spec in Hr.
  - rewrite Hradii, repeat_length. exact Hle.
  - intros Hne. rewrite Hradii. specialize (Hn Hne).
    destruct n; [lia | now left].
  - exact Hall.
  - split; intros H.
    + destruct (Z_lt_le_dec resolution 4) as [Hlt | Hle4]; [| exact Hle4].
      assert (resolution / 4 < 1) by (apply Z.div_lt_upper_bound; lia). lia.
    + apply Z.div_le_lower_bound; lia.
Qed.

End BuilderProperties.

(** C2: the builder splats exactly the samples, in trail order, whose
    timestamp lies in the window with both ends included and whose
    coordinates lie in the frame.  The positions it selects are the trail
    filtered by that test, and a sample on either end of the window is
    kept.  Its calls of [cv2.circle] are made at these positions, in
    order, up to the first one OpenCV refuses, and nothing else is drawn;
    when the drawing routine accepts every disk the field returned is the
    field of zeros with a disk drawn at each selected position and then
    smoothed, and it is the field of zeros as it is when no sample is
    selected.  Over a window that contains the whole trail the builder
    does what it does over the unbounded window, which selects the
    in-bounds samples. *)
Theorem window_filter_inclusive (self : Processor)
  (start_time end_time : pyfloat) :
  let positions := positions_in_range self start_time end_time in
  (exists keep : Sample -> bool,
      (forall s, keep s = true <-> splatted self start_time end_time s)
      /\ positions = map sample_xy (filter keep (cursor_positions self)))
  /\ (forall a b t x y,
        start_time = Fin a -> end_time = Fin b -> (a <= b)%Q ->
        In (t, x, y) (cursor_positions self) ->
        in_bounds self x y = true ->
        (t == a)%Q \/ (t == b)%Q ->
        In (x, y) positions)
  /\ (forall cv2_circle cv2_GaussianBlur resolution,
        exists n blurs,
          snd (generate_heatmap cv2_circle cv2_GaussianBlur self
                 start_time end_time resolution [])
          = map (fun p => CvCircle p (resolution / 4)) (firstn n positions)
            ++ blurs
          /\ (blurs = [] \/ blurs = [CvGaussianBlur (blur_size self)])
          /\ (positions <> [] -> (0 < n)%nat))
  /\ (forall (draw : Field -> Z * Z -> Z -> Field) cv2_GaussianBlur
             resolution,
        generate_heatmap (fun f p r => Py.Ok (draw f p r)) cv2_GaussianBlur
          self start_time end_time resolution []
        = match positions with
          | [] => (Py.Ok (np_zeros (height self) (width self)), [])
          | _ :: _ =>
              (cv2_GaussianBlur
                 (fold_left (fun f p => draw f p (resolution / 4)) positions
                    (np_zeros (height self) (width self)))
                 (blur_size self),
               map (fun p => CvCircle p (resolution / 4)) positions
               ++ [CvGaussianBlur (blur_size self)])
          end)
  /\ (forall cv2_circle cv2_GaussianBlur resolution,
        Forall (fun s => float_leq start_time (Fin (sample_time s))
                         /\ float_leq (Fin (sample_time s)) end_time)
          (cursor_positions self) ->
        generate_heatmap cv2_circle cv2_GaussianBlur self
          start_time end_time resolution
        = generate_heatmap cv2_circle cv2_GaussianBlur self
            NegInf PosInf resolution)
  /\ positions_in_range self NegInf PosInf
     = map sample_xy
         (filter (fun s => in_bounds self (snd (fst s)) (snd s))
            (cursor_positions self)).
Proof.
  intros positions. subst positions.
  split; [| split; [| split; [| split; [| split]]]].
  - exists (keeps self start_time end_time). split.
    + intros s. apply keeps_iff.
    + apply positions_in_range_filter.
  - intros a b t x y -> -> Hab Hin Hb Ht.
    rewrite positions_in_range_filter.
    apply in_map_iff. exists (t, x, y). split; [reflexivity |].
    apply filter_In. split; [exact Hin |].
    unfold keeps, in_window. simpl. rewrite Hb, andb_true_r.
    apply andb_true_iff. rewrite !Qle_bool_iff.
    unfold sample_time. cbn [fst].
    destruct Ht as [Ht | Ht]; rewrite Ht; split;
      auto using Qle_refl.
  - intros cv2_circle cv2_GaussianBlur resolution.
    apply generate_heatmap_log.
  - intros draw cv2_GaussianBlur resolution.
    apply generate_heatmap_total.
  - intros cv2_circle cv2_GaussianBlur resolution Hall.
    unfold generate_heatmap.
    now rewrite (positions_in_range_covering self start_time end_time Hall).
  - rewrite positions_in_range_filter. reflexivity.
Qed.

(** A window from one to two seconds over a trail of four samples: the
    samples on both ends of the window get their disk, the one outside the
    frame and the one after the window get none. *)
Example generate_heatmap_four_samples :
  snd (generate_heatmap draw_nothing blur_nothing four_samples
         (Fin 1) (Fin 2) 100 [])
  = [CvCircle (5, 5) 25; CvCircle (7, 7) 25; CvGaussianBlur 15].
Proof. reflexivity. Qed.

Lemma empty_window_zero_field_witness :
  exists field,
    generate_heatmap draw_nothing blur_nothing one_sample (Fin 3) (Fin 2)
      100 []
    = (Py.Ok field, []).
Proof.
  destruct (empty_window_zero_field draw_nothing blur_nothing one_sample
              (Fin 3) (Fin 2) 100)
    as (field & Hfield & _).
  - right; left. reflexivity.
  - now exists field.
Defined.

Example generate_heatmap_one_sample :
  generate_heatmap draw_nothing blur_nothing one_sample (Fin 0) (Fin 2)
    100 []
  = (Py.Ok (np_zeros 10 20), [CvCircle (5, 5) 25; CvGaussianBlur 15]).
Proof. reflexivity. Qed.

(** C8 as the specification words it fails: at resolution 2 the disk of
    the sample is drawn with radius 0, not 1. *)
Lemma splat_radius_not_clamped :
  snd (generate_heatmap draw_checked blur_nothing one_sample
         (Fin 0) (Fin 2) 2 [])
  = [CvCircle (5, 5) 0; CvGaussianBlur 15]
  /\ ~ Forall (fun r => 1 <= r)
         (splat_radii
            (snd (generate_heatmap draw_checked blur_nothing one_sample
                    (Fin 0) (Fin 2) 2 []))).
Proof.
  split; [reflexivity |].
  change (splat_radii _) with [0].
  intros H. inversion H as [| r l Hr _]; subst. lia.
Qed.

(** With a negative resolution the radius handed to [cv2.circle] is
    negative, and a drawing routine that refuses it ends the builder. *)
Example splat_radius_negative :
  generate_heatmap draw_checked blur_nothing one_sample (Fin 0) (Fin 2)
    (-1) []
  = (Py.Raise Py.CvError, [CvCircle (5, 5) (-1)]).
Proof. reflexivity. Qed.

(** ** Elementwise operations on arrays *)

Lemma nth_error_zip_with {A B C : Type} (g : A -> B -> C) (l1 : list A)
  (l2 : list B) (i : nat) :
  nth_error (zip_with g l1 l2) i
  = match nth_error l1 i, nth_error l2 i with
    | Some x, Some y => Some (g x y)
    | _, _ => None
    end.
Proof.
  revert l2 i. unfold zip_with.
  induction l1 as [| a l1 IH]; intros [| b l2] [| i]; simpl;
    try reflexivity.
  - now destruct (nth_error l1 i).
  - apply IH.
Qed.

Lemma map2_exact_pure {A B C : Type} (g : A -> B -> C) (l1 : list A)
  (l2 : list B) :
  length l1 = length l2 ->
  map2_exact (fun x y => Py.Ok (g x y)) l1 l2 = Py.Ok (zip_with g l1 l2).
Proof.
  revert l2. induction l1 as [| a l1 IH]; intros [| b l2] Hlen; simpl in *;
    try discriminate; [reflexivity |].
  rewrite IH by lia. reflexivity.
Qed.

Lemma array_map2_same_shape {A B C : Type} (g : A -> B -> C)
  (a : list (list A)) (b : list (list B)) :
  same_shape a b = true ->
  array_map2 g a b = Py.Ok (zip_with (zip_with g) a b).
Proof.
  unfold array_map2. revert b.
  induction a as [| r a IH]; intros [| s b] Hs; simpl in *;
    try discriminate; [reflexivity |].
  apply andb_true_iff in Hs. destruct Hs as [Hlen Hs].
  apply Nat.eqb_eq in Hlen.
  rewrite (map2_exact_pure g r s Hlen). simpl.
  rewrite (IH b Hs). reflexivity.
Qed.

Lemma at2_zip_with {A B C : Type} (g : A -> B -> C) (a : list (list A))
  (b : list (list B)) (i j : nat) :
  at2 (zip_with (zip_with g) a b) i j
  = match at2 a i j, at2 b i j with
    | Some x, Some y => Some (g x y)
    | _, _ => None
    end.
Proof.
  unfold at2. rewrite nth_error_zip_with.
  destruct (nth_error a i) as [r |]; [| reflexivity].
  destruct (nth_error b i) as [s |].
  - apply nth_error_zip_with.
  - now destruct (nth_error r j).
Qed.

Lemma at2_map {A B : Type} (f : A -> B) (a : list (list A)) (i j : nat) :
  at2 (map (map f) a) i j = option_map f (at2 a i j).
Proof.
  unfold at2. rewrite nth_error_map.
  destruct (nth_error a i) as [r |]; simpl; [| reflexivity].
  apply nth_error_map.
Qed.

Lemma same_shape_map_r {A B C : Type} (f : B -> C) (a : list (list A))
  (b : list (list B)) :
  same_shape a (map (map f) b) = same_shape a b.
Proof.
  revert b. induction a as [| r a IH]; intros [| s b]; simpl;
    try reflexivity.
  now rewrite length_map, IH.
Qed.

Lemma same_shape_at2 {A B : Type} (a : list (list A)) (b : list (list B))
  (i j : nat) (y : B) :
  same_shape a b = true -> at2 b i j = Some y -> exists x, at2 a i j = Some x.
Proof.
  unfold at2. revert b i.
  induction a as [| r a IH]; intros [| s b] [| i] Hs Hy; simpl in *;
    try discriminate.
  - apply andb_true_iff in Hs. destruct Hs as [Hlen _].
    apply Nat.eqb_eq in Hlen.
    destruct (nth_error r j) as [x |] eqn:E; [now exists x |].
    apply nth_error_None in E.
    assert (nth_error s j <> None) by congruence.
    apply nth_error_Some in H. lia.
  - apply andb_true_iff in Hs. destruct Hs as [_ Hs].
    exact (IH b i Hs Hy).
Qed.

Lemma forallb_at2 {A : Type} (P : A -> bool) (a : list (list A))
  (i j : nat) (x : A) :
  forallb (forallb P) a = true -> at2 a i j = Some x -> P x = true.
Proof.
  unfold at2. intros Hall Hx.
  destruct (nth_error a i) as [r |] eqn:Er; [| discriminate].
  rewrite forallb_forall in Hall.
  specialize (Hall r (nth_error_In _ _ Er)).
  rewrite forallb_forall in Hall.
  exact (Hall x (nth_error_In _ _ Hx)).
Qed.

(** Two arrays with the same elements at the same places are equal. *)
Lemma at2_ext {A : Type} (a b : list (list A)) :
  same_shape a b = true ->
  (forall i j, at2 a i j = at2 b i j) -> a = b.
Proof.
  revert b. induction a as [| r a IH]; intros [| s b] Hs Hat; simpl in *;
    try discriminate; [reflexivity |].
  apply andb_true_iff in Hs. destruct Hs as [_ Hs].
  f_equal.
  - apply nth_error_ext. intros j. exact (Hat 0%nat j).
  - apply IH; [exact Hs |]. intros i j. exact (Hat (S i) j).
Qed.

Lemma same_shape_zip_with {A B C : Type} (g : A -> B -> C)
  (a : list (list A)) (b : list (list B)) :
  same_shape a b = true ->
  same_shape (zip_with (zip_with g) a b) a = true.
Proof.
  revert b. induction a as [| r a IH]; intros [| s b] Hs; simpl in *;
    try discriminate; [reflexivity |].
  apply andb_true_iff in Hs. destruct Hs as [Hlen Hs].
  apply Nat.eqb_eq in Hlen.
  apply andb_true_iff. split; [| exact (IH b Hs)].
  apply Nat.eqb_eq. unfold zip_with.
  rewrite length_map, length_combine. lia.
Qed.

(** ** Compositing *)

Lemma np_max_nonempty (a : Field) :
  concat a <> [] -> exists m, np_max a = Py.Ok m.
Proof.
  unfold np_max. destruct (concat a) as [| v vs]; [congruence |].
  intros _. now eexists.
Qed.

Lemma Normalize_from_zero (vmax : Q) (a : Field) :
  (0 < vmax)%Q ->
  Normalize 0 vmax a
  = Py.Ok (map (map (fun v => ((v - 0) / (vmax - 0))%Q)) a).
Proof.
  intros Hpos. unfold Normalize.
  destruct (Qeq_bool 0 vmax) eqn:E.
  - apply Qeq_bool_iff in E. rewrite <- E in Hpos.
    exfalso. exact (Qlt_irrefl _ Hpos).
  - destruct (Py.lt vmax 0) eqn:E'; [| reflexivity].
    apply lt_iff in E'. exfalso.
    exact (Qlt_irrefl _ (Qlt_trans _ _ _ Hpos E')).
Qed.

(** The upper bound of the normalisation is positive whatever the field. *)
Lemma vmax_positive (m : Q) : (0 < (if Py.lt 0 m then m else 1))%Q.
Proof.
  destruct (Py.lt 0 m) eqn:E; [now apply lt_iff | reflexivity].
Qed.

Lemma blend_channel_transparent (f c : Z) (alpha : Q) :
  (alpha == 0)%Q -> is_uint8 f = true -> blend_channel f c alpha = f.
Proof.
  intros Ha Hf. unfold blend_channel, Py.astype_uint8.
  rewrite (int_Qeq_Z _ f) by (rewrite Ha; ring).
  unfold is_uint8 in Hf. apply andb_true_iff in Hf.
  destruct Hf as [H0 H255]. apply Z.leb_le in H0, H255.
  apply Z.mod_small. lia.
Qed.

Lemma blend_transparent (p c : Pixel) (alpha : Q) :
  (alpha == 0)%Q -> pixel_is_uint8 p = true -> blend p (c, alpha) = p.
Proof.
  destruct p as [[fb fg] fr], c as [[cb cg] cr]. simpl.
  intros Ha Hp. apply andb_true_iff in Hp. destruct Hp as [Hp Hr].
  apply andb_true_iff in Hp. destruct Hp as [Hb Hg].
  now rewrite !blend_channel_transparent.
Qed.

Lemma blend_is_uint8 (p : Pixel) (o : Pixel * Q) :
  pixel_is_uint8 (blend p o) = true.
Proof.
  destruct p as [[fb fg] fr], o as [[[cb cg] cr] alpha]. simpl.
  unfold is_uint8, blend_channel.
  rewrite !andb_true_iff, !Z.leb_le.
  pose proof (astype_uint8_range
                (inject_Z fb * (1 - alpha) + inject_Z cb * alpha)).
  pose proof (astype_uint8_range
                (inject_Z fg * (1 - alpha) + inject_Z cg * alpha)).
  pose proof (astype_uint8_range
                (inject_Z fr * (1 - alpha) + inject_Z cr * alpha)).
  lia.
Qed.

Lemma alpha_of_zero_density (v vmax alpha_max : Q) :
  (v == 0)%Q -> ((v - 0) / (vmax - 0) * alpha_max == 0)%Q.
Proof.
  intros Hv. unfold Qdiv. rewrite Hv. ring.
Qed.

Lemma all_zero_at2 (heatmap : Field) (i j : nat) (v : Q) :
  all_zero heatmap = true -> at2 heatmap i j = Some v -> (v == 0)%Q.
Proof.
  intros Hall Hv. apply Qeq_bool_iff.
  exact (forallb_at2 (fun v => Qeq_bool v 0) heatmap i j v Hall Hv).
Qed.

Section CompositorProperties.

Variable cm : string -> option (Q -> Q * Q * Q).

Lemma apply_heatmap_to_frame_returns (self : Processor) (frame : Frame)
  (heatmap : Field) (alpha_max : Q) (cmap : Q -> Q * Q * Q) :
  cm (colormap self) = Some cmap ->
  same_shape frame heatmap = true ->
  concat heatmap <> [] ->
  exists vmax,
    apply_heatmap_to_frame cm self frame heatmap alpha_max
    = Py.Ok (composited cmap frame heatmap alpha_max vmax).
Proof.
  intros Hcm Hs Hne. unfold apply_heatmap_to_frame, getattr_cm.
  destruct (np_max_nonempty heatmap Hne) as [m ->]. simpl.
  rewrite (Normalize_from_zero _ heatmap (vmax_positive m)). simpl.
  rewrite Hcm. simpl.
  exists (if Py.lt 0 m then m else 1)%Q.
  apply array_map2_same_shape.
  now rewrite !same_shape_map_r.
Qed.

End CompositorProperties.

Lemma same_shape_sym {A B : Type} (a : list (list A)) (b : list (list B)) :
  same_shape a b = true -> same_shape b a = true.
Proof.
  revert b. induction a as [| r a IH]; intros [| s b] Hs; simpl in *;
    try discriminate; [reflexivity |].
  apply andb_true_iff in Hs. destruct Hs as [Hlen Hs].
  rewrite Nat.eqb_sym, Hlen. simpl. now apply IH.
Qed.

Lemma composited_at2 (cmap : Q -> Q * Q * Q) (frame : Frame)
  (heatmap : Field) (alpha_max vmax : Q) (i j : nat) (v : Q) :
  frame_is_uint8 frame = true ->
  at2 heatmap i j = Some v -> (v == 0)%Q ->
  at2 (composited cmap frame heatmap alpha_max vmax) i j = at2 frame i j.
Proof.
  intros Hu Hv Hz. unfold composited.
  rewrite at2_zip_with, !at2_map, Hv. simpl.
  destruct (at2 frame i j) as [p |] eqn:Ep; [| reflexivity].
  f_equal. apply blend_transparent.
  - now apply alpha_of_zero_density.
  - exact (forallb_at2 pixel_is_uint8 frame i j p Hu Ep).
Qed.

Lemma composited_is_uint8 (cmap : Q -> Q * Q * Q) (frame : Frame)
  (heatmap : Field) (alpha_max vmax : Q) (i j : nat) (p : Pixel) :
  at2 (composited cmap frame heatmap alpha_max vmax) i j = Some p ->
  pixel_is_uint8 p = true.
Proof.
  unfold composited. rewrite at2_zip_with.
  destruct (at2 frame i j) as [q |]; [| discriminate].
  destruct (at2 _ i j) as [o |]; [| discriminate].
  intros [= <-]. apply blend_is_uint8.
Qed.

Lemma composited_all_zero (cmap : Q -> Q * Q * Q) (frame : Frame)
  (heatmap : Field) (alpha_max vmax : Q) :
  same_shape frame heatmap = true ->
  frame_is_uint8 frame = true ->
  all_zero heatmap = true ->
  composited cmap frame heatmap alpha_max vmax = frame.
Proof.
  intros Hs Hu Hz. apply at2_ext.
  - unfold composited. apply same_shape_zip_with.
    now rewrite !same_shape_map_r.
  - intros i j.
    destruct (at2 heatmap i j) as [v |] eqn:Ev.
    + apply (composited_at2 _ _ _ _ _ _ _ v Hu Ev).
      exact (all_zero_at2 heatmap i j v Hz Ev).
    + unfold composited. rewrite at2_zip_with, !at2_map, Ev. simpl.
      destruct (at2 frame i j) as [p |] eqn:Ep; [| reflexivity].
      destruct (same_shape_at2 heatmap frame i j p (same_shape_sym _ _ Hs) Ep)
        as [v Hv].
      congruence.
Qed.

(** C1: on a [uint8] frame and a field of the same, non-empty shape, with
    a colormap Matplotlib knows, the compositor returns a frame; that frame
    is the input frame when the field is zero everywhere; in any case it
    agrees with the input frame at every pixel where the field is zero;
    and all its channel values lie in [0, 255]. *)
Theorem zero_density_leaves_frame
  (cm : string -> option (Q -> Q * Q * Q)) (self : Processor)
  (frame : Frame) (heatmap : Field) (alpha_max : Q) :
  cm (colormap self) <> None ->
  same_shape frame heatmap = true ->
  concat heatmap <> [] ->
  frame_is_uint8 frame = true ->
  exists out,
    apply_heatmap_to_frame cm self frame heatmap alpha_max = Py.Ok out
    /\ (all_zero heatmap = true -> out = frame)
    /\ (forall i j v,
          at2 heatmap i j = Some v -> (v == 0)%Q ->
          at2 out i j = at2 frame i j)
    /\ (forall i j b g r,
          at2 out i j = Some (b, g, r) ->
          0 <= b <= 255 /\ 0 <= g <= 255 /\ 0 <= r <= 255).
Proof.
  intros Hcm Hs Hne Hu.
  destruct (cm (colormap self)) as [cmap |] eqn:Ecm; [| congruence].
  destruct (apply_heatmap_to_frame_returns cm self frame heatmap alpha_max
              cmap Ecm Hs Hne)
    as [vmax Hout].
  exists (composited cmap frame heatmap alpha_max vmax).
  split; [exact Hout | split; [| split]].
  - intros Hz. now apply composited_all_zero.
  - intros i j v Hv Hz. now apply composited_at2 with (v := v).
  - intros i j b g r Hp.
    apply composited_is_uint8 in Hp. simpl in Hp.
    unfold is_uint8 in Hp.
    rewrite !andb_true_iff, !Z.leb_le in Hp. lia.
Qed.

Example apply_heatmap_to_frame_two_pixels :
  apply_heatmap_to_frame red_ramp one_sample two_pixels half_zero (7 # 10)
  = Py.Ok [[(10, 20, 30); (12, 15, 196)]].
Proof. reflexivity. Qed.

Lemma zero_density_leaves_frame_witness :
  exists out,
    apply_heatmap_to_frame red_ramp one_sample two_pixels half_zero (7 # 10)
    = Py.Ok out
    /\ at2 out 0 0 = Some (10, 20, 30).
Proof.
  assert (Hcm : red_ramp (colormap one_sample) <> None) by discriminate.
  assert (Hne : concat half_zero <> []) by discriminate.
  destruct (zero_density_leaves_frame red_ramp one_sample two_pixels
              half_zero (7 # 10) Hcm eq_refl Hne eq_refl)
    as (out & Hout & _ & Hat & _).
  exists out. split; [exact Hout |].
  apply (Hat 0%nat 0%nat 0%Q); reflexivity.
Defined.

(** ** The detection pass *)

Lemma divide_le_compat (n m : Z) (rate : Q) :
  (0 < rate)%Q -> n <= m -> (inject_Z n / rate <= inject_Z m / rate)%Q.
Proof.
  intros Hr Hnm. unfold Qdiv.
  apply Qmult_le_compat_r.
  - now rewrite <- Zle_Qle.
  - apply Qinv_le_0_compat, Qlt_le_weak, Hr.
Qed.

Lemma inject_Z_nonzero (z : Z) : z <> 0 -> Qeq_bool (inject_Z z) 0 = false.
Proof.
  intros Hz. destruct (Qeq_bool (inject_Z z) 0) eqn:E; [| reflexivity].
  apply Qeq_bool_iff in E. unfold Qeq in E. simpl in E. lia.
Qed.

Lemma nonzero_Qeq_bool (q : Q) : ~ (q == 0)%Q -> Qeq_bool q 0 = false.
Proof.
  intros Hq. destruct (Qeq_bool q 0) eqn:E; [| reflexivity].
  apply Qeq_bool_iff in E. contradiction.
Qed.

Section PassProperties.

Variable cv2_contours : Frame -> Frame -> Z -> list Contour.
Variable fl : Q -> Q.

Lemma detections_cons (th : CursorDetectionThread) (rate : Q) (n : Z)
  (prev : option Frame) (frame : Frame) (rest : list Frame) :
  detections cv2_contours th rate n prev (frame :: rest)
  = detections cv2_contours th rate n prev [frame]
    ++ detections cv2_contours th rate (n + 1) (Some frame) rest.
Proof.
  cbn [detections].
  destruct (match prev with Some _ => _ | None => _ end) as [x y].
  now rewrite app_nil_r.
Qed.

(** One turn of the loop, when neither division fails. *)
Lemma loop_body_ok (th : CursorDetectionThread) (total : Z) (st : RunState)
  (frame : Frame) :
  ~ (fps (run_processor st) == 0)%Q -> total <> 0 ->
  exists st',
    loop_body cv2_contours fl th total st frame = Py.Ok st'
    /\ frame_count st' = frame_count st + 1
    /\ prev_frame st' = Some frame
    /\ fps (run_processor st') = fps (run_processor st)
    /\ cursor_positions (run_processor st')
       = cursor_positions (run_processor st)
         ++ detections cv2_contours th (fps (run_processor st))
              (frame_count st) (prev_frame st) [frame]
    /\ emitted st'
       = emitted st
         ++ [progress_updated (progress_of fl total (frame_count st + 1))].
Proof.
  intros Hfps Htotal. unfold loop_body, Py.truediv.
  rewrite (nonzero_Qeq_bool _ Hfps), (inject_Z_nonzero _ Htotal).
  cbn [Py.bind detections].
  destruct (match prev_frame st with Some _ => _ | None => _ end)
    as [x y].
  eexists. split; [reflexivity |].
  cbn [frame_count prev_frame run_processor emitted].
  repeat split.
  - now destruct ((0 <=? x) && (0 <=? y)).
  - destruct ((0 <=? x) && (0 <=? y)); simpl.
    + reflexivity.
    + now rewrite app_nil_r.
Qed.

(** The loop appends to the trail the detections of the frames it reads
    and emits one progress signal per frame. *)
Lemma run_loop_ok (th : CursorDetectionThread) (total : Z)
  (frames : list Frame) :
  total <> 0 ->
  forall st,
    ~ (fps (run_processor st) == 0)%Q ->
    exists st',
      run_loop cv2_contours fl th total frames st = Py.Ok st'
      /\ fps (run_processor st') = fps (run_processor st)
      /\ cursor_positions (run_processor st')
         = cursor_positions (run_processor st)
           ++ detections cv2_contours th (fps (run_processor st))
                (frame_count st) (prev_frame st) frames
      /\ emitted st'
         = emitted st
           ++ progress_signals fl total (frame_count st) (length frames).
Proof.
  intros Htotal. induction frames as [| frame rest IH]; intros st Hfps.
  - exists st. simpl. now rewrite !app_nil_r.
  - destruct (loop_body_ok th total st frame Hfps Htotal)
      as (st1 & Hbody & Hcount & Hprev & Hrate & Htrail & Hsig).
    destruct (IH st1) as (st' & Hloop & Hrate' & Htrail' & Hsig').
    { now rewrite Hrate. }
    exists st'. cbn [run_loop]. rewrite Hbody. cbn [Py.bind].
    split; [exact Hloop |]. split; [congruence |]. split.
    + rewrite Htrail', Htrail, Hrate, Hcount, Hprev, <- app_assoc.
      now rewrite (detections_cons th _ _ _ frame rest).
    + rewrite Hsig', Hsig, Hcount, <- app_assoc. reflexivity.
Qed.


(** Where each sample comes from: frame [i] of the list, compared with the
    frame before it, at the time of frame number [n + i]. *)
Lemma detections_origin (th : CursorDetectionThread) (rate : Q)
  (frames : list Frame) :
  forall n prev t x y,
    In (t, x, y) (detections cv2_contours th rate n prev frames) ->
    exists i cur before,
      nth_error frames i = Some cur
      /\ nth_error (prev :: map Some frames) i = Some (Some before)
      /\ t = (inject_Z (n + Z.of_nat i) / rate)%Q
      /\ detect_cursor_from_difference cv2_contours (Some cur) (Some before)
           (threshold th) (min_area th) (max_area th) = (x, y)
      /\ 0 <= x /\ 0 <= y.
Proof.
  induction frames as [| frame rest IH]; intros n prev t x y Hin.
  - destruct Hin.
  - rewrite detections_cons in Hin. apply in_app_or in Hin.
    destruct Hin as [Hin | Hin].
    + cbn [detections] in Hin.
      destruct prev as [before |].
      * destruct (detect_cursor_from_difference cv2_contours (Some frame)
                    (Some before) (threshold th) (min_area th) (max_area th))
          as [x0 y0] eqn:Edet.
        destruct ((0 <=? x0) && (0 <=? y0)) eqn:Epos; [| destruct Hin].
        destruct Hin as [Heq | []]. inversion Heq; subst.
        apply andb_true_iff in Epos. rewrite !Z.leb_le in Epos.
        exists 0%nat, frame, before. rewrite Z.add_0_r.
        repeat split; tauto.
      * destruct Hin.
    + destruct (IH _ _ _ _ _ Hin)
        as (i & cur & before & Hcur & Hbefore & Ht & Hdet & Hx & Hy).
      exists (S i), cur, before.
      repeat split; try assumption.
      rewrite Ht. do 2 f_equal. lia.
Qed.

(** The samples come out in time order, none earlier than frame [n]. *)
Lemma detections_ordered (th : CursorDetectionThread) (rate : Q)
  (frames : list Frame) :
  (0 < rate)%Q ->
  forall n prev,
    time_ordered (detections cv2_contours th rate n prev frames)
    /\ Forall (fun s => (inject_Z n / rate <= sample_time s)%Q)
         (detections cv2_contours th rate n prev frames).
Proof.
  intros Hrate. unfold time_ordered.
  induction frames as [| frame rest IH]; intros n prev.
  - split; constructor.
  - destruct (IH (n + 1) (Some frame)) as [Hsorted Hlater].
    assert (Hlater' :
              Forall (fun s => (inject_Z n / rate <= sample_time s)%Q)
                (detections cv2_contours th rate (n + 1) (Some frame) rest)).
    { eapply Forall_impl; [| exact Hlater]. intros s Hs.
      eapply Qle_trans; [| exact Hs].
      apply divide_le_compat; [exact Hrate | lia]. }
    cbn [detections].
    destruct (match prev with Some _ => _ | None => _ end) as [x y].
    destruct ((0 <=? x) && (0 <=? y)); cbn [app].
    + split.
      * constructor; [exact Hsorted | exact Hlater'].
      * constructor; [apply Qle_refl | exact Hlater'].
    + split; assumption.
Qed.

Lemma progress_signals_values (total n : Z) (len : nat) :
  progress_values (progress_signals fl total n len)
  = map (fun k => progress_of fl total (n + 1 + Z.of_nat k)) (seq 0 len).
Proof.
  revert n. induction len as [| len IH]; intros n; [reflexivity |].
  cbn [progress_signals progress_values flat_map app seq map].
  rewrite Z.add_0_r. f_equal.
  fold (progress_values (progress_signals fl total (n + 1) len)).
  rewrite IH, <- seq_shift, map_map.
  apply map_ext. intros k. f_equal. lia.
Qed.


Lemma progress_of_range (total k : Z) :
  keeps_bounds fl ->
  0 < total -> 0 <= k <= total -> 0 <= progress_of fl total k <= 100.
Proof.
  intros Hfl Ht Hk. unfold progress_of.
  assert (H0 : (0 <= inject_Z k / inject_Z total)%Q).
  { apply quotient_nonneg; rewrite <- (Zle_Qle 0); lia. }
  assert (H1 : (inject_Z k / inject_Z total <= inject_Z 1)%Q).
  { apply Qle_shift_div_r.
    - rewrite <- (Zlt_Qlt 0). exact Ht.
    - change (inject_Z 1) with 1%Q. rewrite Qmult_1_l, <- Zle_Qle. lia. }
  destruct (Hfl (inject_Z k / inject_Z total)%Q) as [Hlow Hup].
  assert (R0 : (0 <= fl (inject_Z k / inject_Z total))%Q)
    by exact (Hlow H0).
  assert (R1 : (fl (inject_Z k / inject_Z total) <= 1)%Q)
    by (apply (Hup 1); [lia | exact H1]).
  assert (P0 : (0 <= fl (inject_Z k / inject_Z total) * 100)%Q).
  { apply Qmult_le_0_compat; [exact R0 | discriminate]. }
  assert (P1 : (fl (inject_Z k / inject_Z total) * 100 <= inject_Z 100)%Q).
  { apply Qle_trans with (1 * 100)%Q; [| apply Qle_refl].
    apply Qmult_le_compat_r; [exact R1 | discriminate]. }
  destruct (Hfl (fl (inject_Z k / inject_Z total) * 100)%Q) as [Hlow' Hup'].
  assert (F0 : (0 <= fl (fl (inject_Z k / inject_Z total) * 100))%Q)
    by exact (Hlow' P0).
  assert (F1 : (fl (fl (inject_Z k / inject_Z total) * 100) <= 100)%Q)
    by (apply (Hup' 100); [lia | exact P1]).
  split; [now apply int_nonneg | now apply int_le_upper].
Qed.

(** What a pass that meets no division by zero returns. *)
Lemma run_ok (th : CursorDetectionThread) :
  ~ (fps (processor th) == 0)%Q -> total_frames (processor th) <> 0 ->
  exists p,
    run cv2_contours fl th
    = Py.Ok (p, progress_signals fl (total_frames (processor th)) 0
                  (length (cap_frames (processor th)))
                ++ [finished_processing true])
    /\ cursor_positions p
       = detections cv2_contours th (fps (processor th)) 0 None
           (cap_frames (processor th))
    /\ cap_pos p = 0%nat.
Proof.
  intros Hfps Htotal. unfold run.
  destruct (run_loop_ok th (total_frames (processor th))
              (cap_frames (processor th)) Htotal (run_init th) Hfps)
    as (st & Hloop & _ & Htrail & Hsig).
  rewrite Hloop. cbn [Py.bind].
  exists (with_cap_pos (run_processor st) 0).
  split; [rewrite Hsig; reflexivity | split; [exact Htrail | reflexivity]].
Qed.



Lemma detections_set_trail (th : CursorDetectionThread) (old : list Sample)
  (rate : Q) (frames : list Frame) :
  forall n prev,
    detections cv2_contours (set_trail th old) rate n prev frames
    = detections cv2_contours th rate n prev frames.
Proof.
  induction frames as [| frame rest IH]; intros n prev; [reflexivity |].
  cbn [detections]. rewrite IH. reflexivity.
Qed.

(** C5: a pass over a video with a positive frame rate returns; the trail
    it leaves does not depend on the trail that was there before; each of
    its samples was detected on some frame [i + 1] against frame [i] and
    carries the timestamp [(i + 1) / fps]; and its timestamps never
    decrease. *)
Theorem detection_pass_trail_ordered (th : CursorDetectionThread) :
  (0 < fps (processor th))%Q ->
  total_frames (processor th) <> 0 ->
  exists p signals,
    run cv2_contours fl th = Py.Ok (p, signals)
    /\ (forall old, exists p' signals',
          run cv2_contours fl (set_trail th old) = Py.Ok (p', signals')
          /\ cursor_positions p' = cursor_positions p)
    /\ (forall t x y,
          In (t, x, y) (cursor_positions p) ->
          exists i cur before,
            nth_error (cap_frames (processor th)) (S i) = Some cur
            /\ nth_error (cap_frames (processor th)) i = Some before
            /\ t = (inject_Z (Z.of_nat (S i)) / fps (processor th))%Q
            /\ detect_cursor_from_difference cv2_contours
                 (Some cur) (Some before)
                 (threshold th) (min_area th) (max_area th) = (x, y)
            /\ 0 <= x /\ 0 <= y)
    /\ time_ordered (cursor_positions p).
Proof.
  intros Hrate Htotal.
  assert (Hfps : ~ (fps (processor th) == 0)%Q).
  { intros E. rewrite E in Hrate. exact (Qlt_irrefl _ Hrate). }
  destruct (run_ok th Hfps Htotal) as (p & Hrun & Htrail & _).
  exists p. eexists. split; [exact Hrun |]. split; [| split].
  - intros old.
    destruct (run_ok (set_trail th old) Hfps Htotal)
      as (p' & Hrun' & Htrail' & _).
    exists p'. eexists. split; [exact Hrun' |].
    rewrite Htrail', Htrail. apply detections_set_trail.
  - intros t x y Hin. rewrite Htrail in Hin.
    destruct (detections_origin _ _ _ _ _ _ _ _ Hin)
      as (i & cur & before & Hcur & Hbefore & Ht & Hdet & Hx & Hy).
    destruct i as [| i]; [discriminate Hbefore |].
    cbn [nth_error] in Hbefore. rewrite nth_error_map in Hbefore.
    destruct (nth_error (cap_frames (processor th)) i) as [f |] eqn:Ei;
      [| discriminate Hbefore].
    injection Hbefore as ->.
    exists i, cur, before. repeat split; assumption.
  - rewrite Htrail. now apply detections_ordered.
Qed.


(** C7, as the code has it: after each frame the pass emits one progress
    value, the integer [int((frame_count / total_frames) * 100)] worked out
    in floating point, the quotient and the product each rounded; when the
    video holds no more frames than [total_frames] announces, each value
    lies between 0 and 100, for every rounding that keeps these bounds, as
    [binary64] does. *)
Theorem progress_is_percentage (th : CursorDetectionThread) :
  keeps_bounds fl ->
  ~ (fps (processor th) == 0)%Q ->
  0 < total_frames (processor th) ->
  Z.of_nat (length (cap_frames (processor th)))
  <= total_frames (processor th) ->
  exists p signals,
    run cv2_contours fl th = Py.Ok (p, signals)
    /\ length (progress_values signals)
       = length (cap_frames (processor th))
    /\ forall k v,
         nth_error (progress_values signals) k = Some v ->
         v = Py.int (fl (fl (inject_Z (Z.of_nat k + 1)
                             / inject_Z (total_frames (processor th)))
                         * 100)%Q)
         /\ 0 <= v <= 100.
Proof.
  intros Hfl Hfps Htotal Hlen.
  destruct (run_ok th Hfps) as (p & Hrun & _); [lia |].
  exists p. eexists. split; [exact Hrun |].
  unfold progress_values at 1 2. rewrite flat_map_app. cbn [flat_map].
  rewrite !app_nil_r.
  fold (progress_values
          (progress_signals fl (total_frames (processor th)) 0
             (length (cap_frames (processor th))))).
  rewrite progress_signals_values.
  split; [now rewrite length_map, length_seq |].
  intros k v Hk. rewrite nth_error_map, nth_error_seq in Hk.
  destruct (Nat.ltb_spec k (length (cap_frames (processor th))))
    as [Hlt | Hge]; [| discriminate Hk].
  cbn [option_map] in Hk.
  assert (Hv : v = progress_of fl (total_frames (processor th))
                     (Z.of_nat k + 1)).
  { replace (Z.of_nat k + 1) with (0 + 1 + Z.of_nat (0 + k)) by lia.
    congruence. }
  rewrite Hv. split; [reflexivity |].
  apply progress_of_range; [exact Hfl | lia | lia].
Qed.

End PassProperties.

Example run_pass3 :
  run two_contours binary64 pass3
  = Py.Ok (with_cursor_positions three_frames
             [(1 # 10, 40, 30); (2 # 10, 40, 30)],
           [progress_updated 33; progress_updated 66; progress_updated 100;
            finished_processing true]).
Proof. reflexivity. Qed.

Lemma detection_pass_trail_ordered_witness :
  exists p signals,
    run two_contours binary64 pass3 = Py.Ok (p, signals)
    /\ time_ordered (cursor_positions p).
Proof.
  assert (Htotal : total_frames (processor pass3) <> 0) by discriminate.
  destruct (detection_pass_trail_ordered two_contours binary64 pass3 eq_refl Htotal)
    as (p & signals & Hrun & _ & _ & Hordered).
  exists p, signals. split; [exact Hrun | exact Hordered].
Defined.



(** C7 as the specification words it fails: the values a pass reports run
    up to 100; they are not fractions between 0 and 1. *)
Lemma progress_exceeds_one :
  exists p signals,
    run two_contours binary64 pass3 = Py.Ok (p, signals)
    /\ progress_values signals = [33; 66; 100]
    /\ ~ Forall (fun v => 0 <= v <= 1) (progress_values signals).
Proof.
  do 2 eexists. split; [reflexivity |]. split; [reflexivity |].
  change (progress_values _) with [33; 66; 100].
  intros H. inversion H as [| v l Hv _]; subst. lia.
Qed.

Lemma progress_is_percentage_witness :
  exists p signals,
    run two_contours binary64 pass3 = Py.Ok (p, signals)
    /\ length (progress_values signals) = 3%nat
    /\ forall k v,
         nth_error (progress_values signals) k = Some v -> 0 <= v <= 100.
Proof.
  assert (Hfps : ~ (fps (processor pass3) == 0)%Q) by discriminate.
  assert (Htotal : 0 < total_frames (processor pass3)) by reflexivity.
  assert (Hlen : Z.of_nat (length (cap_frames (processor pass3)))
                 <= total_frames (processor pass3)) by discriminate.
  destruct (progress_is_percentage two_contours binary64 pass3
              binary64_keeps_bounds Hfps Htotal Hlen)
    as (p & signals & Hrun & Hcount & Hvalues).
  exists p, signals. split; [exact Hrun |]. split; [exact Hcount |].
  intros k v Hk. exact (proj2 (Hvalues k v Hk)).
Defined.

(** * Part III: further properties of the code *)

(** ** The detector *)

Lemma filter_none {A : Type} (f : A -> bool) (l : list A) :
  (forall x, f x = false) -> filter f l = [].
Proof.
  intros Hf. induction l as [| x l IH]; simpl; [reflexivity |].
  now rewrite Hf.
Qed.

Lemma survives_inverted (min_area max_area : Z) (c : Contour) :
  max_area < min_area -> survives min_area max_area c = false.
Proof.
  intros Hinv. unfold survives.
  destruct (Qle_bool (inject_Z min_area) (area c)) eqn:E1; [| reflexivity].
  destruct (Qle_bool (area c) (inject_Z max_area)) eqn:E2; [| reflexivity].
  apply Qle_bool_iff in E1, E2.
  pose proof (Qle_trans _ _ _ E1 E2) as H.
  rewrite <- Zle_Qle in H. lia.
Qed.

(** X1: with [min_area > max_area] no contour can pass the area test, so
    the detector returns the sentinel [(-1, -1)] for every pair of
    frames. *)
Theorem detect_inverted_area_range
  (cv2_contours : Frame -> Frame -> Z -> list Contour)
  (frame prev_frame : option Frame) (threshold min_area max_area : Z) :
  max_area < min_area ->
  detect_cursor_from_difference cv2_contours frame prev_frame
    threshold min_area max_area = (-1, -1).
Proof.
  intros Hinv. unfold detect_cursor_from_difference.
  destruct prev_frame as [prev |]; [| reflexivity].
  destruct frame as [cur |]; [| reflexivity].
  rewrite valid_contours_filter, filter_none; [reflexivity |].
  intros c. now apply survives_inverted.
Qed.

Lemma detect_inverted_area_range_witness :
  detect_cursor_from_difference two_contours (Some black_frame)
    (Some black_frame) 15 500 3 = (-1, -1).
Proof.
  apply (detect_inverted_area_range two_contours (Some black_frame)
           (Some black_frame) 15 500 3).
  reflexivity.
Defined.

(** The element a descending stable sort puts first is the first of the
    list among those of largest key. *)
Lemma sort_reverse_first_maximal {A : Type} (key : A -> Q) (l : list A) :
  forall b r,
    sort_reverse key l = b :: r ->
    exists before after,
      l = before ++ b :: after
      /\ Forall (fun y => (key y < key b)%Q) before
      /\ Forall (fun y => (key y <= key b)%Q) after.
Proof.
  induction l as [| x l IH]; intros b r Hsort; [discriminate |].
  cbn [sort_reverse] in Hsort.
  destruct (sort_reverse key l) as [| y s] eqn:Es.
  - destruct l as [| z l'].
    + cbn in Hsort. injection Hsort as <- _.
      exists [], []. repeat split; constructor.
    + exfalso. exact (sort_reverse_nonempty key z l' Es).
  - destruct (IH y s eq_refl) as (before & after & Hl & Hb & Ha).
    cbn [insert_desc] in Hsort.
    destruct (Qle_bool (key y) (key x)) eqn:E.
    + injection Hsort as <- _. apply Qle_bool_iff in E.
      exists [], l. split; [reflexivity |]. split; [constructor |].
      rewrite Hl. apply Forall_app. split.
      * eapply Forall_impl; [| exact Hb]. intros z Hz.
        apply Qle_trans with (key y); [now apply Qlt_le_weak | exact E].
      * constructor; [exact E |].
        eapply Forall_impl; [| exact Ha]. intros z Hz.
        now apply Qle_trans with (key y).
    + injection Hsort as <- _.
      exists (x :: before), after. split; [now rewrite Hl |].
      split; [| exact Ha].
      constructor; [| exact Hb].
      apply lt_iff. unfold Py.lt. now rewrite E.
Qed.

(** X2: when several surviving contours share the largest value of area
    times circularity, the one OpenCV listed first is selected: every
    survivor before the selected one scores strictly less, every one after
    it scores no more. *)
Theorem best_centroid_first_maximal (min_area max_area : Z)
  (contours : list Contour) :
  valid_contours min_area max_area contours <> [] ->
  exists before best after,
    valid_contours min_area max_area contours = before ++ best :: after
    /\ Forall (fun x => (score x < score best)%Q) before
    /\ Forall (fun x => (score x <= score best)%Q) after
    /\ best_centroid (valid_contours min_area max_area contours)
       = centroid_or_sentinel (fst (fst best)).
Proof.
  intros Hne.
  destruct (valid_contours min_area max_area contours) as [| v valid] eqn:Ev;
    [congruence |].
  unfold best_centroid.
  destruct (sort_reverse score (v :: valid)) as [| best r] eqn:Es.
  - exfalso. exact (sort_reverse_nonempty score v valid Es).
  - destruct (sort_reverse_first_maximal score (v :: valid) best r Es)
      as (before & after & Hl & Hb & Ha).
    exists before, best, after. repeat split; try assumption.
    unfold centroid_or_sentinel.
    destruct (Qeq_bool (m00 (fst (fst best))) 0); reflexivity.
Qed.

Lemma best_centroid_first_maximal_witness :
  exists before best after,
    valid_contours 3 500 [streak; blob; blob_right] = before ++ best :: after
    /\ Forall (fun x => (score x < score best)%Q) before
    /\ best_centroid (valid_contours 3 500 [streak; blob; blob_right])
       = centroid_or_sentinel (fst (fst best)).
Proof.
  assert (Hne : valid_contours 3 500 [streak; blob; blob_right] <> [])
    by discriminate.
  destruct (best_centroid_first_maximal 3 500 [streak; blob; blob_right] Hne)
    as (before & best & after & Hsplit & Hbefore & _ & Hbest).
  exists before, best, after.
  split; [exact Hsplit | split; [exact Hbefore | exact Hbest]].
Defined.

Example best_centroid_tie :
  best_centroid (valid_contours 3 500 [streak; blob; blob_right]) = (40, 30)
  /\ best_centroid (valid_contours 3 500 [streak; blob_right; blob])
     = (80, 30).
Proof. split; reflexivity. Qed.

(** ** The density-field builder *)

Lemma positions_in_frame (self : Processor) (start_time end_time : pyfloat) :
  Forall (fun p => 0 <= fst p < Z.of_nat (width self)
                   /\ 0 <= snd p < Z.of_nat (height self))
    (positions_in_range self start_time end_time).
Proof.
  rewrite positions_in_range_filter. apply Forall_forall.
  intros p Hp. apply in_map_iff in Hp.
  destruct Hp as ([[t x] y] & <- & Hs).
  apply filter_In in Hs. destruct Hs as [_ Hkeep].
  apply keeps_iff in Hkeep. unfold splatted in Hkeep. simpl. tauto.
Qed.

Lemma In_firstn {A : Type} (n : nat) (l : list A) (x : A) :
  In x (firstn n l) -> In x l.
Proof.
  intros H. rewrite <- (firstn_skipn n l). apply in_or_app. now left.
Qed.

Lemma set_blur_size_parity (self : Processor) (v : Z) :
  Z.odd (blur_size (set_blur_size self v)) = true.
Proof.
  unfold set_blur_size; simpl. rewrite Zmod_odd.
  destruct (Z.odd v) eqn:Hodd; simpl; [exact Hodd |].
  now rewrite Z.odd_add, Hodd.
Qed.

Lemma positions_in_range_set_blur_size (self : Processor) (v : Z)
  (start_time end_time : pyfloat) :
  positions_in_range (set_blur_size self v) start_time end_time
  = positions_in_range self start_time end_time.
Proof. reflexivity. Qed.

Section BuilderFurther.

Variable cv2_circle : Field -> Z * Z -> Z -> Py.result Field.
Variable cv2_GaussianBlur : Field -> Z -> Py.result Field.

(** X3: every disk the builder draws is centred on a pixel of the frame,
    whatever the trail, the window and the resolution. *)
Theorem disks_centred_in_frame (self : Processor)
  (start_time end_time : pyfloat) (resolution : Z) :
  Forall (circle_in_frame self)
    (snd (generate_heatmap cv2_circle cv2_GaussianBlur self
            start_time end_time resolution [])).
Proof.
  destruct (generate_heatmap_log cv2_circle cv2_GaussianBlur self
              start_time end_time resolution)
    as (n & blurs & -> & Hblurs & _).
  apply Forall_app. split.
  - apply Forall_forall. intros c Hc. apply in_map_iff in Hc.
    destruct Hc as ([x y] & <- & Hp).
    apply In_firstn in Hp.
    pose proof (positions_in_frame self start_time end_time) as Hall.
    rewrite Forall_forall in Hall. exact (Hall (x, y) Hp).
  - destruct Hblurs as [-> | ->]; repeat constructor.
Qed.

(** X4: after [set_blur_size], whatever value was given, every smoothing
    call the builder makes has an odd kernel size. *)
Theorem blur_kernel_odd_after_set_blur_size (self : Processor) (v : Z)
  (start_time end_time : pyfloat) (resolution : Z) :
  Forall blur_is_odd
    (snd (generate_heatmap cv2_circle cv2_GaussianBlur
            (set_blur_size self v) start_time end_time resolution [])).
Proof.
  destruct (generate_heatmap_log cv2_circle cv2_GaussianBlur
              (set_blur_size self v) start_time end_time resolution)
    as (n & blurs & -> & Hblurs & _).
  apply Forall_app. split.
  - apply Forall_forall. intros c Hc. apply in_map_iff in Hc.
    now destruct Hc as (p & <- & _).
  - destruct Hblurs as [-> | ->]; repeat constructor.
    apply set_blur_size_parity.
Qed.

(** X5: when OpenCV accepts every disk, the builder draws one disk per
    selected sample, in trail order, each with radius [resolution // 4],
    and then, if there was at least one, makes exactly one smoothing call
    with kernel size [blur_size]; it makes no other call. *)
Theorem generate_heatmap_calls (self : Processor)
  (start_time end_time : pyfloat) (resolution : Z) :
  (forall f p r, exists f', cv2_circle f p r = Py.Ok f') ->
  snd (generate_heatmap cv2_circle cv2_GaussianBlur self
         start_time end_time resolution [])
  = map (fun p => CvCircle p (resolution / 4))
      (positions_in_range self start_time end_time)
    ++ match positions_in_range self start_time end_time with
       | [] => []
       | _ :: _ => [CvGaussianBlur (blur_size self)]
       end.
Proof.
  intros Hdraw. unfold generate_heatmap.
  destruct (cursor_positions self) as [| s0 trail] eqn:Etrail.
  - unfold positions_in_range. rewrite Etrail. reflexivity.
  - set (positions := positions_in_range self start_time end_time).
    unfold cv_bind.
    destruct (splat_all_drawn cv2_circle resolution positions Hdraw
                (np_zeros (height self) (width self)) [])
      as [drawn ->].
    destruct positions as [| p0 ps]; reflexivity.
Qed.

(** X6: when OpenCV refuses the first disk, the builder ends with that
    error after this one call: no further disk is drawn and the smoothing
    pass is not attempted. *)
Theorem generate_heatmap_first_disk_refused (self : Processor)
  (start_time end_time : pyfloat) (resolution : Z) (p : Z * Z)
  (rest : list (Z * Z)) (e : Py.exn) :
  positions_in_range self start_time end_time = p :: rest ->
  cv2_circle (np_zeros (height self) (width self)) p (resolution / 4)
  = Py.Raise e ->
  generate_heatmap cv2_circle cv2_GaussianBlur self
    start_time end_time resolution []
  = (Py.Raise e, [CvCircle p (resolution / 4)]).
Proof.
  intros Hpos Hfail. unfold generate_heatmap.
  destruct (cursor_positions self) as [| s0 trail] eqn:Etrail.
  - unfold positions_in_range in Hpos. rewrite Etrail in Hpos.
    discriminate.
  - rewrite Hpos. cbn [splat]. unfold cv_bind, cv_call.
    rewrite Hfail. reflexivity.
Qed.

End BuilderFurther.

Lemma generate_heatmap_calls_witness :
  snd (generate_heatmap draw_nothing blur_nothing one_sample
         (Fin 0) (Fin 2) 100 [])
  = [CvCircle (5, 5) 25; CvGaussianBlur 15].
Proof.
  apply (generate_heatmap_calls draw_nothing blur_nothing one_sample
           (Fin 0) (Fin 2) 100).
  intros f p r. now exists f.
Defined.

Lemma generate_heatmap_first_disk_refused_witness :
  generate_heatmap draw_failing blur_nothing one_sample (Fin 0) (Fin 2)
    100 []
  = (Py.Raise Py.CvError, [CvCircle (5, 5) 25]).
Proof.
  apply (generate_heatmap_first_disk_refused draw_failing blur_nothing
           one_sample (Fin 0) (Fin 2) 100 (5, 5) [] Py.CvError);
    reflexivity.
Defined.

(** ** The compositor *)

Lemma composited_transparent (cmap : Q -> Q * Q * Q) (frame : Frame)
  (heatmap : Field) (alpha_max vmax : Q) :
  same_shape frame heatmap = true ->
  frame_is_uint8 frame = true ->
  (forall n, (n * alpha_max == 0)%Q) ->
  composited cmap frame heatmap alpha_max vmax = frame.
Proof.
  intros Hs Hu Halpha. apply at2_ext.
  - unfold composited. apply same_shape_zip_with.
    now rewrite !same_shape_map_r.
  - intros i j. unfold composited. rewrite at2_zip_with, !at2_map.
    destruct (at2 frame i j) as [p |] eqn:Ep; [| reflexivity].
    destruct (at2 heatmap i j) as [v |] eqn:Ev; simpl.
    + f_equal. apply blend_transparent; [apply Halpha |].
      exact (forallb_at2 pixel_is_uint8 frame i j p Hu Ep).
    + destruct (same_shape_at2 heatmap frame i j p (same_shape_sym _ _ Hs) Ep)
        as [v Hv].
      congruence.
Qed.

(** X7: with [alpha_max = 0] the compositor returns the frame unchanged,
    whatever the density field (of the frame's shape and not empty) and
    whatever the colormap Matplotlib has under the processor's name. *)
Theorem zero_alpha_leaves_frame
  (cm : string -> option (Q -> Q * Q * Q)) (self : Processor)
  (frame : Frame) (heatmap : Field) :
  cm (colormap self) <> None ->
  same_shape frame heatmap = true ->
  concat heatmap <> [] ->
  frame_is_uint8 frame = true ->
  apply_heatmap_to_frame cm self frame heatmap 0 = Py.Ok frame.
Proof.
  intros Hcm Hs Hne Hu.
  destruct (cm (colormap self)) as [cmap |] eqn:Ecm; [| congruence].
  destruct (apply_heatmap_to_frame_returns cm self frame heatmap 0
              cmap Ecm Hs Hne)
    as [vmax ->].
  f_equal. apply composited_transparent; try assumption.
  intros n. ring.
Qed.

Lemma zero_alpha_leaves_frame_witness :
  apply_heatmap_to_frame red_ramp one_sample two_pixels half_zero 0
  = Py.Ok two_pixels.
Proof.
  apply (zero_alpha_leaves_frame red_ramp one_sample two_pixels half_zero).
  - discriminate.
  - reflexivity.
  - discriminate.
  - reflexivity.
Defined.

(** X8: the compositor raises [ValueError] on a field without elements,
    before it looks the colormap up; on a field with elements it raises
    [AttributeError] when Matplotlib has no colormap of the processor's
    name, whatever the frame. *)
Theorem apply_heatmap_to_frame_errors
  (cm : string -> option (Q -> Q * Q * Q)) (self : Processor)
  (frame : Frame) (heatmap : Field) (alpha_max : Q) :
  (concat heatmap = [] ->
   apply_heatmap_to_frame cm self frame heatmap alpha_max
   = Py.Raise Py.ValueError)
  /\ (concat heatmap <> [] -> cm (colormap self) = None ->
      apply_heatmap_to_frame cm self frame heatmap alpha_max
      = Py.Raise Py.AttributeError).
Proof.
  split.
  - intros Hempty. unfold apply_heatmap_to_frame, np_max.
    now rewrite Hempty.
  - intros Hne Hcm. unfold apply_heatmap_to_frame, getattr_cm.
    destruct (np_max_nonempty heatmap Hne) as [m ->]. simpl.
    rewrite (Normalize_from_zero _ heatmap (vmax_positive m)). simpl.
    now rewrite Hcm.
Qed.

(** X9: on a frame and a field of the same, non-empty shape, with a known
    colormap, the compositor returns a frame of the input frame's shape,
    for every [alpha_max] and every content of the frame. *)
Theorem apply_heatmap_to_frame_shape
  (cm : string -> option (Q -> Q * Q * Q)) (self : Processor)
  (frame : Frame) (heatmap : Field) (alpha_max : Q) :
  cm (colormap self) <> None ->
  same_shape frame heatmap = true ->
  concat heatmap <> [] ->
  exists out,
    apply_heatmap_to_frame cm self frame heatmap alpha_max = Py.Ok out
    /\ same_shape out frame = true
    /\ length out = length frame.
Proof.
  intros Hcm Hs Hne.
  destruct (cm (colormap self)) as [cmap |] eqn:Ecm; [| congruence].
  destruct (apply_heatmap_to_frame_returns cm self frame heatmap alpha_max
              cmap Ecm Hs Hne)
    as [vmax ->].
  eexists. split; [reflexivity |].
  assert (Hshape : same_shape (composited cmap frame heatmap alpha_max vmax)
                     frame = true).
  { unfold composited. apply same_shape_zip_with.
    now rewrite !same_shape_map_r. }
  split; [exact Hshape |].
  clear -Hshape. revert Hshape.
  generalize (composited cmap frame heatmap alpha_max vmax) as out.
  induction frame as [| r a IH]; intros [| s b] Hs; simpl in *;
    try discriminate; [reflexivity |].
  apply andb_true_iff in Hs. destruct Hs as [_ Hs].
  f_equal. now apply IH.
Qed.

Lemma apply_heatmap_to_frame_shape_witness :
  exists out,
    apply_heatmap_to_frame red_ramp one_sample two_pixels half_zero (7 # 10)
    = Py.Ok out
    /\ same_shape out two_pixels = true.
Proof.
  assert (Hcm : red_ramp (colormap one_sample) <> None) by discriminate.
  assert (Hne : concat half_zero <> []) by discriminate.
  destruct (apply_heatmap_to_frame_shape red_ramp one_sample two_pixels
              half_zero (7 # 10) Hcm eq_refl Hne)
    as (out & Hout & Hshape & _).
  exists out. split; [exact Hout | exact Hshape].
Defined.

(** ** The detection pass *)

Section PassFurther.

Variable cv2_contours : Frame -> Frame -> Z -> list Contour.
Variable fl : Q -> Q.

Lemma detections_length (th : CursorDetectionThread) (rate : Q)
  (frames : list Frame) :
  forall n prev,
    (length (detections cv2_contours th rate n prev frames)
     <= length frames)%nat.
Proof.
  induction frames as [| frame rest IH]; intros n prev; [simpl; lia |].
  rewrite detections_cons, length_app.
  specialize (IH (n + 1) (Some frame)).
  assert (length (detections cv2_contours th rate n prev [frame]) <= 1)%nat.
  { cbn [detections].
    destruct (match prev with Some _ => _ | None => _ end) as [x y].
    destruct ((0 <=? x) && (0 <=? y)); simpl; lia. }
  cbn [length]. lia.
Qed.

Lemma detections_first_frame (th : CursorDetectionThread) (rate : Q)
  (frames : list Frame) (n : Z) :
  (length (detections cv2_contours th rate n None frames)
   <= pred (length frames))%nat.
Proof.
  destruct frames as [| frame rest]; [simpl; lia |].
  rewrite detections_cons, length_app.
  pose proof (detections_length th rate rest (n + 1) (Some frame)).
  change (detections cv2_contours th rate n None [frame]) with (@nil Sample).
  cbn [length pred]. lia.
Qed.

(** X10: a pass over a video of [n] frames leaves at most [n - 1] samples
    in the trail, the first frame having nothing to be compared with; in
    particular a video of one frame or none leaves an empty trail. *)
Theorem trail_shorter_than_video (th : CursorDetectionThread) :
  ~ (fps (processor th) == 0)%Q ->
  total_frames (processor th) <> 0 ->
  exists p signals,
    run cv2_contours fl th = Py.Ok (p, signals)
    /\ (length (cursor_positions p)
        <= pred (length (cap_frames (processor th))))%nat
    /\ ((length (cap_frames (processor th)) <= 1)%nat ->
        cursor_positions p = []).
Proof.
  intros Hfps Htotal.
  destruct (run_ok cv2_contours fl th Hfps Htotal) as (p & Hrun & Htrail & _).
  exists p. eexists. split; [exact Hrun |].
  pose proof (detections_first_frame th (fps (processor th))
                (cap_frames (processor th)) 0) as Hlen.
  rewrite <- Htrail in Hlen.
  split; [exact Hlen |].
  intros Hshort. destruct (cursor_positions p); [reflexivity |].
  simpl in Hlen. lia.
Qed.

(** X11: a pass over a video without frames ends well with an empty trail
    and [finished_processing(True)] as its only signal, whatever the frame
    rate and the announced frame count; a pass over a video with frames
    raises [ZeroDivisionError] on its first frame when the frame rate or
    the announced frame count is zero, and then emits no
    [finished_processing] at all. *)
Theorem run_division_by_zero (th : CursorDetectionThread) :
  (cap_frames (processor th) = [] ->
   run cv2_contours fl th
   = Py.Ok (with_cap_pos
              (with_cursor_positions (with_cap_pos (processor th) 0) []) 0,
            [finished_processing true]))
  /\ (cap_frames (processor th) <> [] ->
      (fps (processor th) == 0)%Q \/ total_frames (processor th) = 0 ->
      run cv2_contours fl th = Py.Raise Py.ZeroDivisionError).
Proof.
  split.
  - intros Hempty. unfold run. now rewrite Hempty.
  - intros Hne Hzero. unfold run.
    destruct (cap_frames (processor th)) as [| frame rest]; [congruence |].
    cbn [run_loop]. unfold loop_body, Py.truediv.
    cbn [run_init run_processor with_cursor_positions with_cap_pos fps
         frame_count prev_frame].
    destruct (Qeq_bool (fps (processor th)) 0) eqn:Efps; [reflexivity |].
    destruct Hzero as [Hfps | Htotal].
    + apply Qeq_bool_iff in Hfps. congruence.
    + cbn [Py.bind]. rewrite Htotal. reflexivity.
Qed.

Lemma loop_body_keeps_settings (th : CursorDetectionThread) (total : Z)
  (st st' : RunState) (frame : Frame) (base : Processor) :
  loop_body cv2_contours fl th total st frame = Py.Ok st' ->
  (exists trail pos, run_processor st = with_trail_and_pos base trail pos) ->
  exists trail pos, run_processor st' = with_trail_and_pos base trail pos.
Proof.
  intros Hbody (trail & pos & Hst). revert Hbody.
  unfold loop_body, Py.truediv.
  destruct (Qeq_bool (fps (run_processor st)) 0); [discriminate |].
  cbn [Py.bind].
  destruct (match prev_frame st with Some _ => _ | None => _ end)
    as [x y].
  destruct (Qeq_bool (inject_Z total) 0); [discriminate |].
  cbn [Py.bind]. intros [= <-]. cbn [run_processor]. rewrite Hst.
  destruct ((0 <=? x) && (0 <=? y)); eexists; eexists; reflexivity.
Qed.

Lemma run_loop_keeps_settings (th : CursorDetectionThread) (total : Z)
  (base : Processor) (frames : list Frame) :
  forall st st',
    run_loop cv2_contours fl th total frames st = Py.Ok st' ->
    (exists trail pos, run_processor st = with_trail_and_pos base trail pos) ->
    exists trail pos, run_processor st' = with_trail_and_pos base trail pos.
Proof.
  induction frames as [| frame rest IH]; intros st st' Hloop Hst.
  - injection Hloop as <-. exact Hst.
  - cbn [run_loop] in Hloop.
    destruct (loop_body cv2_contours fl th total st frame) as [st1 | e] eqn:E;
      [| discriminate].
    cbn [Py.bind] in Hloop.
    apply (IH st1 st' Hloop).
    exact (loop_body_keeps_settings th total st st1 frame base E Hst).
Qed.

(** X12: a pass changes nothing of the processor but the trail and the
    read position of the capture, which it leaves at frame 0: the frame
    size, the frame rate, the frame count, the blur size and the colormap
    are as before. *)
Theorem run_keeps_settings (th : CursorDetectionThread) :
  ~ (fps (processor th) == 0)%Q ->
  total_frames (processor th) <> 0 ->
  exists trail signals,
    run cv2_contours fl th
    = Py.Ok (with_trail_and_pos (processor th) trail 0, signals).
Proof.
  intros Hfps Htotal. unfold run.
  destruct (run_loop_ok cv2_contours fl th (total_frames (processor th))
              (cap_frames (processor th)) Htotal (run_init th) Hfps)
    as (st & Hloop & _).
  rewrite Hloop. cbn [Py.bind].
  destruct (run_loop_keeps_settings th (total_frames (processor th))
              (processor th) (cap_frames (processor th)) (run_init th) st
              Hloop)
    as (trail & pos & Hst).
  { exists [], 0%nat. reflexivity. }
  exists trail. eexists. rewrite Hst. reflexivity.
Qed.

End PassFurther.

Lemma trail_shorter_than_video_witness :
  exists p signals,
    run two_contours binary64 pass3 = Py.Ok (p, signals)
    /\ (length (cursor_positions p) <= 2)%nat.
Proof.
  assert (Hfps : ~ (fps (processor pass3) == 0)%Q) by discriminate.
  assert (Htotal : total_frames (processor pass3) <> 0) by discriminate.
  destruct (trail_shorter_than_video two_contours binary64 pass3 Hfps Htotal)
    as (p & signals & Hrun & Hlen & _).
  exists p, signals. split; [exact Hrun | exact Hlen].
Defined.

Example run_pass_uncounted :
  run two_contours binary64 pass_uncounted = Py.Raise Py.ZeroDivisionError.
Proof. reflexivity. Qed.

Lemma run_keeps_settings_witness :
  exists trail signals,
    run two_contours binary64 pass3
    = Py.Ok (with_trail_and_pos three_frames trail 0, signals).
Proof.
  assert (Hfps : ~ (fps (processor pass3) == 0)%Q) by discriminate.
  assert (Htotal : total_frames (processor pass3) <> 0) by discriminate.
  exact (run_keeps_settings two_contours binary64 pass3 Hfps Htotal).
Defined.

(** ** Python lists *)

Lemma position_in_range (len : nat) (i : Z) :
  0 <= i < Z.of_nat len -> Ui.position len i = Some (Z.to_nat i).
Proof.
  intros Hi. unfold Ui.position.
  destruct (Z.leb_spec 0 i); [| lia].
  destruct (Z.ltb_spec i (Z.of_nat len)); [reflexivity | lia].
Qed.

Lemma set_nth_length {A : Type} (l : list A) (n : nat) (v : A) :
  length (Ui.set_nth l n v) = length l.
Proof.
  revert n. induction l as [| x l IH]; intros [| n]; simpl; auto.
Qed.

Lemma set_nth_sum (l : list Z) (n : nat) (x v : Z) :
  nth_error l n = Some x ->
  sum_counts (Ui.set_nth l n v) = sum_counts l - x + v.
Proof.
  revert n. induction l as [| y l IH]; intros [| n] Hn; simpl in *;
    try discriminate.
  - injection Hn as ->. lia.
  - rewrite (IH n Hn). lia.
Qed.

Lemma set_nth_Forall {A : Type} (P : A -> Prop) (l : list A) (n : nat)
  (v : A) :
  Forall P l -> P v -> Forall P (Ui.set_nth l n v).
Proof.
  intros Hl Hv. revert n.
  induction Hl as [| x l Hx Hl IH]; intros [| n]; simpl;
    constructor; auto.
Qed.

(** Incrementing at an index inside the list adds one to the sum. *)
Lemma increment_in_range (l : list Z) (i : Z) :
  0 <= i < Z.of_nat (length l) ->
  exists l',
    Ui.increment l i = Ui.Ok l'
    /\ length l' = length l
    /\ sum_counts l' = sum_counts l + 1
    /\ (Forall (fun c => 0 <= c) l -> Forall (fun c => 0 <= c) l').
Proof.
  intros Hi. unfold Ui.increment. rewrite (position_in_range _ _ Hi).
  destruct (nth_error l (Z.to_nat i)) as [v |] eqn:Ev.
  - eexists. split; [reflexivity |].
    split; [apply set_nth_length |].
    split; [rewrite (set_nth_sum l _ v); [lia | exact Ev] |].
    intros Hall. apply set_nth_Forall; [exact Hall |].
    rewrite Forall_forall in Hall.
    specialize (Hall v (nth_error_In _ _ Ev)). lia.
  - apply nth_error_None in Ev. lia.
Qed.

Lemma fold_left_max_spec (rest : list Z) :
  forall x,
    (fold_left Z.max rest x = x \/ In (fold_left Z.max rest x) rest)
    /\ x <= fold_left Z.max rest x
    /\ Forall (fun y => y <= fold_left Z.max rest x) rest.
Proof.
  induction rest as [| y rest IH]; intros x; simpl.
  - repeat split; [now left | lia | constructor].
  - destruct (IH (Z.max x y)) as (Hin & Hle & Hall).
    split; [| split].
    + destruct Hin as [E | Hin]; [| now right; right].
      destruct (Z.max_spec x y) as [[_ Hm] | [_ Hm]].
      * right; left. now rewrite E, Hm.
      * left. now rewrite E, Hm.
    + lia.
    + constructor; [lia | exact Hall].
Qed.

(** On a list with elements, [max_or_one] is the largest of them. *)
Lemma max_or_one_spec (l : list Z) :
  l <> [] ->
  In (Ui.max_or_one l) l /\ Forall (fun y => y <= Ui.max_or_one l) l.
Proof.
  destruct l as [| x rest]; [congruence |]. intros _.
  unfold Ui.max_or_one.
  destruct (fold_left_max_spec rest x) as (Hin & Hle & Hall).
  split.
  - destruct Hin as [-> | Hin]; [now left | now right].
  - constructor; assumption.
Qed.

Lemma positive_sum_positive_max (l : list Z) (m : Z) :
  Forall (fun c => 0 <= c) l -> Forall (fun c => c <= m) l ->
  0 < sum_counts l -> 0 < m.
Proof.
  intros Hpos Hmax. revert Hmax.
  induction Hpos as [| x l Hx Hpos IH]; intros Hmax Hsum; simpl in Hsum;
    [lia |].
  inversion Hmax as [| ? ? Hxm Hmax']; subst.
  destruct (Z.eq_dec x 0) as [-> | Hne]; [apply IH; [assumption | lia] | lia].
Qed.

Lemma truediv_counts (c m : Z) :
  m <> 0 ->
  Ui.of_py (Py.truediv (inject_Z c) (inject_Z m))
  = Ui.Ok (inject_Z c / inject_Z m)%Q.
Proof.
  intros Hm. unfold Py.truediv. now rewrite (inject_Z_nonzero m Hm).
Qed.

Lemma share_in_unit (c m : Z) :
  0 <= c <= m -> 0 < m -> (0 <= inject_Z c / inject_Z m <= 1)%Q.
Proof.
  intros Hc Hm. split.
  - apply quotient_nonneg; rewrite <- (Zle_Qle 0); lia.
  - apply Qle_shift_div_r.
    + now rewrite <- (Zlt_Qlt 0).
    + rewrite Qmult_1_l, <- Zle_Qle. lia.
Qed.

Lemma share_of_itself (m : Z) : 0 < m -> (inject_Z m / inject_Z m == 1)%Q.
Proof.
  intros Hm. apply Qmult_inv_r.
  intros E. unfold Qeq in E. simpl in E. lia.
Qed.

(** ** [sorted] *)

Lemma insert_asc_In {A : Type} (key : A -> Q) (x y : A) (l : list A) :
  In y (insert_asc key x l) <-> y = x \/ In y l.
Proof.
  induction l as [| z l IH]; simpl.
  - intuition.
  - destruct (Qle_bool (key x) (key z)); simpl; [intuition |].
    rewrite IH. intuition.
Qed.

Lemma sorted_In {A : Type} (key : A -> Q) (y : A) (l : list A) :
  In y (sorted key l) <-> In y l.
Proof.
  induction l as [| x l IH]; simpl; [tauto |].
  rewrite insert_asc_In, IH. intuition.
Qed.

Lemma insert_asc_length {A : Type} (key : A -> Q) (x : A) (l : list A) :
  length (insert_asc key x l) = S (length l).
Proof.
  induction l as [| z l IH]; simpl; [reflexivity |].
  destruct (Qle_bool (key x) (key z)); simpl; [reflexivity | now rewrite IH].
Qed.

Lemma sorted_length {A : Type} (key : A -> Q) (l : list A) :
  length (sorted key l) = length l.
Proof.
  induction l as [| x l IH]; simpl; [reflexivity |].
  now rewrite insert_asc_length, IH.
Qed.

(** Sorting a list that is in order already returns it as it is. *)
Lemma sorted_of_ordered {A : Type} (key : A -> Q) (l : list A) :
  StronglySorted (fun a b => (key a <= key b)%Q) l -> sorted key l = l.
Proof.
  induction 1 as [| x l Hs IH Hx]; simpl; [reflexivity |].
  rewrite IH. destruct l as [| y l']; [reflexivity |].
  simpl. inversion Hx as [| ? ? Hxy _]; subst.
  apply Qle_bool_iff in Hxy. now rewrite Hxy.
Qed.

(** X13: the trail a complete pass leaves is in time order already, so the
    [sorted(...)] of [processing_finished] returns it unchanged: the
    waveform widget receives the trail itself. *)
Theorem sorted_trail_is_trail
  (cv2_contours : Frame -> Frame -> Z -> list Contour) (fl : Q -> Q)
  (th : CursorDetectionThread) :
  (0 < fps (processor th))%Q ->
  total_frames (processor th) <> 0 ->
  exists p signals,
    run cv2_contours fl th = Py.Ok (p, signals)
    /\ sorted sample_time (cursor_positions p) = cursor_positions p.
Proof.
  intros Hrate Htotal.
  assert (Hfps : ~ (fps (processor th) == 0)%Q).
  { intros E. rewrite E in Hrate. exact (Qlt_irrefl _ Hrate). }
  destruct (run_ok cv2_contours fl th Hfps Htotal) as (p & Hrun & Htrail & _).
  exists p. eexists. split; [exact Hrun |].
  apply sorted_of_ordered. rewrite Htrail.
  now apply detections_ordered.
Qed.

Lemma sorted_trail_is_trail_witness :
  exists p signals,
    run two_contours binary64 pass3 = Py.Ok (p, signals)
    /\ sorted sample_time (cursor_positions p) = cursor_positions p.
Proof.
  assert (Htotal : total_frames (processor pass3) <> 0) by discriminate.
  exact (sorted_trail_is_trail two_contours binary64 pass3 eq_refl Htotal).
Defined.

(** ** The timeline data of [processing_finished] *)

Lemma truediv_nonzero (a b : Q) :
  ~ (b == 0)%Q -> Ui.of_py (Py.truediv a b) = Ui.Ok (a / b)%Q.
Proof.
  intros Hb. unfold Py.truediv. now rewrite (nonzero_Qeq_bool b Hb).
Qed.

Lemma positive_nonzero (q : Q) : (0 < q)%Q -> ~ (q == 0)%Q.
Proof.
  intros Hq E. rewrite E in Hq. exact (Qlt_irrefl _ Hq).
Qed.

(** Every sample with a time that is not negative lands in one of the
    hundred bins, which gains one. *)
Lemma fill_bins_counts (bin_size : Q) (positions : list Sample) :
  (0 < bin_size)%Q ->
  Forall (fun s => (0 <= sample_time s)%Q) positions ->
  forall bins,
    length bins = 100%nat ->
    exists bins',
      fill_bins bin_size positions bins = Ui.Ok bins'
      /\ length bins' = 100%nat
      /\ sum_counts bins' = sum_counts bins + Z.of_nat (length positions)
      /\ (Forall (fun c => 0 <= c) bins -> Forall (fun c => 0 <= c) bins').
Proof.
  intros Hsize Htimes.
  induction Htimes as [| [[time x] y] rest Ht _ IH]; intros bins Hlen.
  - exists bins. simpl. repeat split; auto. lia.
  - cbn [fill_bins].
    rewrite (truediv_nonzero time bin_size (positive_nonzero _ Hsize)).
    cbn [Ui.bind].
    assert (Hq : 0 <= Py.int (time / bin_size)).
    { apply int_nonneg, quotient_nonneg; [exact Ht |].
      now apply Qlt_le_weak. }
    destruct (increment_in_range bins (Z.min (Py.int (time / bin_size)) 99))
      as (bins1 & -> & Hlen1 & Hsum1 & Hpos1); [rewrite Hlen; lia |].
    cbn [Ui.bind].
    destruct (IH bins1) as (bins' & Hfill & Hlen' & Hsum' & Hpos');
      [congruence |].
    exists bins'. split; [exact Hfill |]. split; [exact Hlen' |].
    split; [| auto].
    rewrite Hsum', Hsum1. cbn [length]. lia.
Qed.

(** Each bin becomes a point whose intensity is the bin's share of the
    fullest bin. *)
Lemma bin_points_shares (bin_size : Q) (max_bin : Z) (bins : list Z) :
  max_bin <> 0 ->
  forall i,
    exists points,
      bin_points bin_size max_bin i bins = Ui.Ok points
      /\ length points = length bins
      /\ map snd points
         = map (fun c => (inject_Z c / inject_Z max_bin)%Q) bins.
Proof.
  intros Hmax. induction bins as [| count rest IH]; intros i.
  - exists []. repeat split.
  - cbn [bin_points]. rewrite (truediv_counts count max_bin Hmax).
    cbn [Ui.bind].
    destruct (IH (i + 1)) as (points & -> & Hlen & Hsnd).
    cbn [Ui.bind]. eexists. split; [reflexivity |].
    simpl. now rewrite Hlen, Hsnd.
Qed.

Lemma shares_in_unit (bins : list Z) (m : Z) :
  0 < m -> Forall (fun c => 0 <= c) bins -> Forall (fun c => c <= m) bins ->
  Forall (fun v => (0 <= v <= 1)%Q)
    (map (fun c => (inject_Z c / inject_Z m)%Q) bins).
Proof.
  intros Hm Hpos Hmax. apply Forall_forall. intros v Hv.
  apply in_map_iff in Hv. destruct Hv as (c & <- & Hc).
  rewrite Forall_forall in Hpos, Hmax.
  apply share_in_unit; [| exact Hm].
  split; [exact (Hpos c Hc) | exact (Hmax c Hc)].
Qed.

(** X14: for a trail with at least one sample, no negative timestamp and a
    positive video duration, [processing_finished] hands the timeline one
    point per bin, a hundred in all; every sample is counted in exactly one
    bin; each intensity is its bin's count over the largest count, so it
    lies in [0, 1] and the fullest bin has intensity 1. *)
Theorem timeline_data_counts_every_sample (self : Processor)
  (video_duration : Q) :
  cursor_positions self <> [] ->
  (0 < video_duration)%Q ->
  Forall (fun s => (0 <= sample_time s)%Q) (cursor_positions self) ->
  exists data bins,
    processing_finished_data self video_duration
    = Ui.Ok (Some (data, sorted sample_time (cursor_positions self),
                   video_duration))
    /\ length bins = 100%nat /\ length data = 100%nat
    /\ Forall (fun c => 0 <= c) bins
    /\ sum_counts bins = Z.of_nat (length (cursor_positions self))
    /\ map snd data
       = map (fun c => (inject_Z c / inject_Z (Ui.max_or_one bins))%Q) bins
    /\ Forall (fun v => (0 <= v <= 1)%Q) (map snd data)
    /\ exists v, In v (map snd data) /\ (v == 1)%Q.
Proof.
  intros Hne Hdur Htimes. unfold processing_finished_data.
  destruct (cursor_positions self) as [| s0 trail] eqn:Etrail;
    [congruence |].
  rewrite <- Etrail in *. clear Hne.
  assert (Hsize : (0 < video_duration / 100)%Q).
  { apply Qlt_shift_div_l; [reflexivity |]. now rewrite Qmult_0_l. }
  assert (Hsorted : Forall (fun s => (0 <= sample_time s)%Q)
                      (sorted sample_time (cursor_positions self))).
  { apply Forall_forall. intros s Hs. apply sorted_In in Hs.
    rewrite Forall_forall in Htimes. auto. }
  destruct (fill_bins_counts (video_duration / 100)
              (sorted sample_time (cursor_positions self)) Hsize Hsorted
              (repeat 0 100))
    as (bins & -> & Hlen & Hsum & Hpos); [reflexivity |].
  cbn [Ui.bind].
  assert (Hnonneg : Forall (fun c => 0 <= c) bins).
  { apply Hpos. apply Forall_forall. intros c Hc.
    apply repeat_spec in Hc. lia. }
  assert (Hcount : sum_counts bins
                   = Z.of_nat (length (cursor_positions self))).
  { rewrite Hsum, sorted_length. reflexivity. }
  assert (Hbins : bins <> []) by (intros E; rewrite E in Hlen; discriminate).
  destruct (max_or_one_spec bins Hbins) as [Hin Hle].
  assert (Hmax : 0 < Ui.max_or_one bins).
  { apply (positive_sum_positive_max bins); try assumption.
    rewrite Hcount, Etrail. cbn [length]. lia. }
  destruct (bin_points_shares (video_duration / 100) (Ui.max_or_one bins)
              bins) with (i := 0)
    as (data & -> & Hdata & Hsnd); [lia |].
  cbn [Ui.bind]. exists data, bins.
  split; [reflexivity |].
  split; [exact Hlen |]. split; [congruence |].
  split; [exact Hnonneg |]. split; [exact Hcount |].
  split; [exact Hsnd |]. rewrite Hsnd. split.
  - now apply shares_in_unit.
  - exists (inject_Z (Ui.max_or_one bins) / inject_Z (Ui.max_or_one bins))%Q.
    split; [| now apply share_of_itself].
    apply in_map_iff. now exists (Ui.max_or_one bins).
Qed.

Lemma timeline_data_counts_every_sample_witness :
  exists data bins,
    processing_finished_data one_sample 3
    = Ui.Ok (Some (data, sorted sample_time (cursor_positions one_sample),
                   3%Q))
    /\ sum_counts bins = 1.
Proof.
  assert (Hne : cursor_positions one_sample <> []) by discriminate.
  assert (Htimes : Forall (fun s => (0 <= sample_time s)%Q)
                     (cursor_positions one_sample))
    by (repeat constructor; discriminate).
  destruct (timeline_data_counts_every_sample one_sample 3 Hne eq_refl Htimes)
    as (data & bins & Hdata & _ & _ & _ & Hsum & _).
  exists data, bins. split; [exact Hdata | exact Hsum].
Defined.

(** ** The histogram of the waveform widget *)

Lemma fill_histogram_none_in_view (max_time bin_size : Q) (bins : Z)
  (positions : list Sample) (histogram : list Z) :
  in_view max_time positions = [] ->
  fill_histogram max_time bin_size bins positions histogram
  = Ui.Ok histogram.
Proof.
  unfold in_view.
  induction positions as [| [[time x] y] rest IH]; intros Hnone;
    [reflexivity |].
  cbn [fill_histogram filter] in *. unfold sample_time in Hnone at 1.
  cbn [fst] in Hnone.
  destruct (Qle_bool time max_time); [discriminate | now apply IH].
Qed.

Lemma fill_histogram_counts (max_time bin_size : Q) (bins : Z)
  (positions : list Sample) :
  (0 < bin_size)%Q -> 1 <= bins ->
  Forall (fun s => (0 <= sample_time s)%Q) positions ->
  forall histogram,
    Z.of_nat (length histogram) = bins ->
    exists histogram',
      fill_histogram max_time bin_size bins positions histogram
      = Ui.Ok histogram'
      /\ length histogram' = length histogram
      /\ sum_counts histogram'
         = sum_counts histogram
           + Z.of_nat (length (in_view max_time positions))
      /\ (Forall (fun c => 0 <= c) histogram ->
          Forall (fun c => 0 <= c) histogram').
Proof.
  intros Hsize Hbins Htimes. unfold in_view.
  induction Htimes as [| [[time x] y] rest Ht _ IH]; intros histogram Hlen.
  - exists histogram. simpl. repeat split; auto. lia.
  - cbn [fill_histogram filter]. unfold sample_time at 1. cbn [fst].
    destruct (Qle_bool time max_time).
    + rewrite (truediv_nonzero time bin_size (positive_nonzero _ Hsize)).
      cbn [Ui.bind].
      assert (Hq : 0 <= Py.int (time / bin_size)).
      { apply int_nonneg, quotient_nonneg; [exact Ht |].
        now apply Qlt_le_weak. }
      destruct (increment_in_range histogram
                  (Z.min (Py.int (time / bin_size)) (bins - 1)))
        as (h1 & -> & Hlen1 & Hsum1 & Hpos1); [lia |].
      cbn [Ui.bind].
      destruct (IH h1) as (h' & Hfill & Hlen' & Hsum' & Hpos');
        [congruence |].
      exists h'. split; [exact Hfill |]. split; [congruence |].
      split; [| auto].
      rewrite Hsum', Hsum1. cbn [length]. lia.
    + destruct (IH histogram Hlen) as (h' & Hfill & Hlen' & Hsum' & Hpos').
      exists h'. repeat split; auto.
Qed.

Lemma max_or_one_zeros (n : nat) : Ui.max_or_one (repeat 0 (S n)) = 0.
Proof.
  simpl. induction n as [| n IH]; simpl; [reflexivity | exact IH].
Qed.

Lemma normalize_shares (l : list Z) (m : Z) :
  m <> 0 ->
  Ui.normalize l m
  = Ui.Ok (map (fun c => (inject_Z c / inject_Z m)%Q) l).
Proof.
  intros Hm. induction l as [| h rest IH]; [reflexivity |].
  cbn [Ui.normalize]. rewrite (truediv_counts h m Hm). cbn [Ui.bind].
  rewrite IH. reflexivity.
Qed.

(** X15: with positions to show, painting the waveform raises
    [ZeroDivisionError] when the widget is less than two pixels wide (it
    has no bin), and also when it has bins but no sample is as early as
    [width_seconds] (the largest count is then zero). *)
Theorem waveform_division_by_zero (cursor_positions : list Sample)
  (width_seconds : Q) (width : Z) :
  cursor_positions <> [] ->
  (0 <= width < 2 ->
   waveform_normalized cursor_positions width_seconds width
   = Ui.Raise (Ui.PyExn Py.ZeroDivisionError))
  /\ (2 <= width -> in_view width_seconds cursor_positions = [] ->
      waveform_normalized cursor_positions width_seconds width
      = Ui.Raise (Ui.PyExn Py.ZeroDivisionError)).
Proof.
  intros Hne. unfold waveform_normalized.
  destruct cursor_positions as [| s0 trail]; [congruence |].
  split.
  - intros Hw. rewrite (Z.div_small width 2 Hw). reflexivity.
  - intros Hw Hnone.
    assert (Hbins : 1 <= width / 2) by (apply Z.div_le_lower_bound; lia).
    rewrite truediv_nonzero.
    2:{ intros E. unfold Qeq in E. simpl in E. lia. }
    cbn [Ui.bind].
    rewrite (fill_histogram_none_in_view _ _ _ _ _ Hnone). cbn [Ui.bind].
    destruct (Z.to_nat (width / 2)) as [| n] eqn:En; [lia |].
    rewrite max_or_one_zeros. reflexivity.
Qed.

(** X16: on a widget at least two pixels wide, for a positive
    [width_seconds] and a trail without negative timestamps of which some
    sample is in view, the waveform gets [width // 2] values; the counts
    behind them add up to the number of samples in view, each value is its
    count over the largest count, lies in [0, 1], and the largest is 1. *)
Theorem waveform_counts_samples_in_view (cursor_positions : list Sample)
  (width_seconds : Q) (width : Z) :
  2 <= width ->
  (0 < width_seconds)%Q ->
  Forall (fun s => (0 <= sample_time s)%Q) cursor_positions ->
  in_view width_seconds cursor_positions <> [] ->
  exists histogram,
    waveform_normalized cursor_positions width_seconds width
    = Ui.Ok (Some (map (fun c => (inject_Z c
                                  / inject_Z (Ui.max_or_one histogram))%Q)
                     histogram))
    /\ Z.of_nat (length histogram) = width / 2
    /\ Forall (fun c => 0 <= c) histogram
    /\ sum_counts histogram
       = Z.of_nat (length (in_view width_seconds cursor_positions))
    /\ Forall (fun v => (0 <= v <= 1)%Q)
         (map (fun c => (inject_Z c
                         / inject_Z (Ui.max_or_one histogram))%Q)
            histogram)
    /\ exists c, In c histogram
                 /\ (inject_Z c / inject_Z (Ui.max_or_one histogram) == 1)%Q.
Proof.
  intros Hw Hdur Htimes Hview. unfold waveform_normalized.
  destruct cursor_positions as [| s0 trail] eqn:Etrail;
    [exfalso; now apply Hview |].
  rewrite <- Etrail in *.
  assert (Hbins : 1 <= width / 2) by (apply Z.div_le_lower_bound; lia).
  assert (Hbinsq : (0 < inject_Z (width / 2))%Q)
    by (rewrite <- (Zlt_Qlt 0); lia).
  rewrite (truediv_nonzero _ _ (positive_nonzero _ Hbinsq)).
  cbn [Ui.bind].
  assert (Hsize : (0 < width_seconds / inject_Z (width / 2))%Q).
  { apply Qlt_shift_div_l; [exact Hbinsq |]. now rewrite Qmult_0_l. }
  destruct (fill_histogram_counts width_seconds
              (width_seconds / inject_Z (width / 2)) (width / 2)
              cursor_positions Hsize Hbins Htimes
              (repeat 0 (Z.to_nat (width / 2))))
    as (h & -> & Hlen & Hsum & Hpos); [rewrite repeat_length; lia |].
  cbn [Ui.bind].
  rewrite repeat_length in Hlen.
  assert (Hnonneg : Forall (fun c => 0 <= c) h).
  { apply Hpos. apply Forall_forall. intros c Hc.
    apply repeat_spec in Hc. lia. }
  assert (Hzero : sum_counts (repeat 0 (Z.to_nat (width / 2))) = 0).
  { clear. induction (Z.to_nat (width / 2)) as [| n IH]; simpl;
      [reflexivity | exact IH]. }
  rewrite Hzero in Hsum. simpl in Hsum.
  assert (Hh : h <> []).
  { intros E. rewrite E in Hlen. simpl in Hlen. lia. }
  destruct (max_or_one_spec h Hh) as [Hin Hle].
  assert (Hmax : 0 < Ui.max_or_one h).
  { apply (positive_sum_positive_max h); try assumption.
    rewrite Hsum.
    destruct (in_view width_seconds cursor_positions); [congruence |].
    cbn [length]. lia. }
  rewrite normalize_shares by lia. cbn [Ui.bind].
  exists h. split; [reflexivity |]. split; [lia |].
  split; [exact Hnonneg |]. split; [exact Hsum |]. split.
  - now apply shares_in_unit.
  - exists (Ui.max_or_one h). split; [exact Hin | now apply share_of_itself].
Qed.

Lemma waveform_division_by_zero_witness :
  waveform_normalized (cursor_positions one_sample) 100 1
  = Ui.Raise (Ui.PyExn Py.ZeroDivisionError)
  /\ waveform_normalized (cursor_positions one_sample) (1 # 2) 200
     = Ui.Raise (Ui.PyExn Py.ZeroDivisionError).
Proof.
  assert (Hne : cursor_positions one_sample <> []) by discriminate.
  split.
  - destruct (waveform_division_by_zero (cursor_positions one_sample) 100 1
                Hne) as [Hnarrow _].
    apply Hnarrow. lia.
  - destruct (waveform_division_by_zero (cursor_positions one_sample) (1 # 2)
                200 Hne) as [_ Hnone].
    apply Hnone; [lia | reflexivity].
Defined.

Lemma waveform_counts_samples_in_view_witness :
  exists histogram,
    waveform_normalized (cursor_positions one_sample) 100 200
    = Ui.Ok (Some (map (fun c => (inject_Z c
                                  / inject_Z (Ui.max_or_one histogram))%Q)
                     histogram))
    /\ sum_counts histogram = 1.
Proof.
  assert (Htimes : Forall (fun s => (0 <= sample_time s)%Q)
                     (cursor_positions one_sample))
    by (repeat constructor; discriminate).
  assert (Hview : in_view 100 (cursor_positions one_sample) <> [])
    by discriminate.
  assert (Hw : 2 <= 200) by lia.
  destruct (waveform_counts_samples_in_view (cursor_positions one_sample)
              100 200 Hw eq_refl Htimes Hview)
    as (h & Hout & _ & _ & Hsum & _).
  exists h. split; [exact Hout | exact Hsum].
Defined.

(** ** The timeline widget *)

From Stdlib Require Import Lqa.

Lemma lt_cases (a b : Q) :
  (Py.lt a b = true /\ (a < b)%Q) \/ (Py.lt a b = false /\ (b <= a)%Q).
Proof.
  destruct (Py.lt a b) eqn:E.
  - left. split; [reflexivity | now apply lt_iff].
  - right. split; [reflexivity |].
    unfold Py.lt in E. apply negb_false_iff in E.
    now apply Qle_bool_iff.
Qed.

(** Case analysis on every comparison of the goal. *)
Ltac split_lt :=
  repeat match goal with
         | |- context [Py.lt ?a ?b] =>
             let E := fresh "E" in
             destruct (lt_cases a b) as [[E ?] | [E ?]];
             rewrite E in *; clear E
         | H : context [Py.lt ?a ?b] |- _ =>
             let E := fresh "E" in
             destruct (lt_cases a b) as [[E ?] | [E ?]];
             rewrite E in *; clear E
         end.

(** Clamping into [[0, total]], as [max(0, min(v, total))]. *)
Lemma clamp_max_min (v total : Q) :
  (0 <= total)%Q ->
  (0 <= py_max 0 (py_min v total) <= total)%Q
  /\ ((0 <= v <= total)%Q -> (py_max 0 (py_min v total) == v)%Q).
Proof.
  intros Ht. unfold py_max, py_min. split_lt; split; intros; lra.
Qed.

(** Clamping into [[0, total]], as [min(max(0, v), total)]. *)
Lemma clamp_min_max (v total : Q) :
  (0 <= total)%Q -> (0 <= py_min (py_max 0 v) total <= total)%Q.
Proof.
  intros Ht. unfold py_max, py_min. split_lt; lra.
Qed.

(** X17: whatever it is asked for, [setRange] leaves the markers in order
    inside the video, [0 <= start <= end <= total_duration]; a range that
    is in order inside the video is stored as given, and one whose end
    lies before its start is stored with the end on the start marker. *)
Theorem setRange_orders_markers (self : Timeline) (start_time end_time : Q) :
  (0 <= total_duration self)%Q ->
  let '(s, e) := getSelectedRange (setRange self start_time end_time) in
  (0 <= s)%Q /\ (s <= e)%Q /\ (e <= total_duration self)%Q
  /\ ((0 <= start_time)%Q -> (start_time <= end_time)%Q ->
      (end_time <= total_duration self)%Q ->
      (s == start_time)%Q /\ (e == end_time)%Q)
  /\ ((end_time < start_time)%Q -> (e == s)%Q).
Proof.
  intros Ht. unfold getSelectedRange, setRange. cbn [start_marker end_marker].
  unfold py_max, py_min.
  split_lt; repeat split; intros; lra.
Qed.

Lemma setRange_orders_markers_witness :
  let '(s, e) := getSelectedRange (setRange (Timeline_init 400) 30 20) in
  (0 <= s)%Q /\ (s <= e)%Q /\ (e <= 100)%Q.
Proof.
  pose proof (setRange_orders_markers (Timeline_init 400) 30 20) as H.
  destruct (getSelectedRange (setRange (Timeline_init 400) 30 20)) as [s e].
  destruct H as (H1 & H2 & H3 & _); [discriminate |].
  split; [exact H1 | split; [exact H2 | exact H3]].
Defined.

(** X18: dragging never disorders the timeline.  If the markers are in
    order inside the video and the widget is not exactly 20 pixels wide, a
    mouse move returns with the markers still in order inside the same
    video, and every signal it emits announces a range with its ends in
    order, or a position, inside the video. *)
Theorem mouseMoveEvent_keeps_markers_ordered (self : Timeline) (x : Z) :
  markers_ordered self ->
  widget_width self <> 20 ->
  exists self' signals,
    mouseMoveEvent self x = Py.Ok (self', signals)
    /\ markers_ordered self'
    /\ total_duration self' = total_duration self
    /\ Forall (signal_in_video (total_duration self)) signals.
Proof.
  intros (H0 & H1 & H2 & H3 & H4) Hw.
  unfold mouseMoveEvent, pixelsToSeconds, Py.truediv.
  rewrite (inject_Z_nonzero (widget_width self - 20)) by lia.
  cbn [Py.bind].
  set (raw := (inject_Z (x - 10) / inject_Z (widget_width self - 20)
               * total_duration self)%Q).
  assert (Ht : (0 <= total_duration self)%Q) by lra.
  pose proof (clamp_min_max raw (total_duration self) Ht) as Hnew.
  set (new_pos := py_min (py_max 0 raw) (total_duration self)) in *.
  pose proof (clamp_max_min new_pos (total_duration self) Ht) as [Hcur _].
  unfold markers_ordered.
  destruct (dragging_start self); cbn [orb].
  - destruct (lt_cases new_pos (end_marker self)) as [[-> Hlt] | [-> Hge]];
      eexists; eexists; (split; [reflexivity |]);
      cbn [with_markers start_marker end_marker current_pos total_duration];
      repeat split; try lra; repeat constructor; simpl; lra.
  - destruct (dragging_end self); cbn [orb].
    + destruct (lt_cases (start_marker self) new_pos) as [[-> Hlt] | [-> Hge]];
        eexists; eexists; (split; [reflexivity |]);
        cbn [with_markers start_marker end_marker current_pos total_duration];
        repeat split; try lra; repeat constructor; simpl; lra.
    + destruct (dragging_current self).
      * unfold setCurrentPosition.
        eexists; eexists; (split; [reflexivity |]).
        cbn [start_marker end_marker current_pos total_duration].
        repeat split; try lra.
        destruct (Qeq_bool (current_pos self) _); repeat constructor;
          simpl; lra.
      * eexists; eexists; (split; [reflexivity |]).
        repeat split; try lra; constructor.
Qed.

Lemma mouseMoveEvent_keeps_markers_ordered_witness :
  exists self' signals,
    mouseMoveEvent dragging_timeline 50 = Py.Ok (self', signals)
    /\ markers_ordered self'.
Proof.
  assert (Hm : markers_ordered dragging_timeline).
  { unfold markers_ordered; simpl. repeat split; discriminate. }
  assert (Hw : widget_width dragging_timeline <> 20) by discriminate.
  destruct (mouseMoveEvent_keeps_markers_ordered dragging_timeline 50 Hm Hw)
    as (self' & signals & Hrun & Hordered & _).
  exists self', signals. split; [exact Hrun | exact Hordered].
Defined.

(** Dragging the start marker past the end marker moves nothing. *)
Example mouseMoveEvent_start_past_end :
  mouseMoveEvent dragging_timeline 200 = Py.Ok (dragging_timeline, []).
Proof. reflexivity. Qed.
